(** * DataOps Assistant: the pipeline core, embedded and verified

    A shallow embedding of the operational core of the repository
    (condition evaluator, connectivity probe, source selector, REST
    pagination, specification validation, quality gate, transform
    substitution and run catalog), with the properties its design
    document states about them.

    Python [str] values are modelled as [string]: sequences of characters
    whose code points are below 256.  Python [int] is [Z]. *)

From Stdlib Require Import String Ascii ZArith List Bool Lia Floats Uint63.
From stdpp Require Import base option list strings pretty gmap sorting.

Local Open Scope string_scope.

(** ** Python string primitives *)

Module PyStr.

(** The two quote characters, [chr(39)] and [chr(34)]. *)
Definition squote : ascii := "039"%char.
Definition dquote : ascii := "034"%char.

(** [s.startswith(p)] *)
Fixpoint startswith (p s : string) : bool :=
  match p, s with
  | EmptyString, _ => true
  | String a p', String b s' => if Ascii.eqb a b then startswith p' s' else false
  | String _ _, EmptyString => false
  end.

(** [s.endswith(p)] *)
Fixpoint endswith (p s : string) : bool :=
  String.eqb p s ||
  match s with
  | EmptyString => false
  | String _ s' => endswith p s'
  end.

(** [sub in s] *)
Fixpoint contains (sub s : string) : bool :=
  match s with
  | EmptyString => startswith sub EmptyString
  | String _ s' => startswith sub s || contains sub s'
  end.

(** [s.split(sep)] for a non-empty [sep]: cut at the non-overlapping
    occurrences of [sep], scanning from the left.  [skip] counts the
    characters of a matched separator that are still to be passed over,
    [cur] is the piece being collected. *)
Fixpoint split_go (sep : string) (skip : nat) (cur s : string) : list string :=
  match s with
  | EmptyString => [cur]
  | String c s' =>
      match skip with
      | S k => split_go sep k cur s'
      | O =>
          if startswith sep s
          then cur :: split_go sep (String.length sep - 1) EmptyString s'
          else split_go sep 0 (cur ++ String c EmptyString) s'
      end
  end.

Definition split (sep s : string) : list string := split_go sep 0 EmptyString s.

(** [s.lstrip(chars)] and [s.rstrip(chars)], with the character set
    given as a predicate. *)
Fixpoint lstrip (p : ascii -> bool) (s : string) : string :=
  match s with
  | EmptyString => EmptyString
  | String c s' => if p c then lstrip p s' else s
  end.

Fixpoint rstrip (p : ascii -> bool) (s : string) : string :=
  match s with
  | EmptyString => EmptyString
  | String c s' =>
      match rstrip p s' with
      | EmptyString => if p c then EmptyString else String c EmptyString
      | r => String c r
      end
  end.

Definition strip (p : ascii -> bool) (s : string) : string := rstrip p (lstrip p s).

(** Membership of a character in the argument of [strip(chars)]. *)
Fixpoint mem (c : ascii) (chars : string) : bool :=
  match chars with
  | EmptyString => false
  | String d chars' => Ascii.eqb c d || mem c chars'
  end.

(** [str.isspace] on one character below 256: what [strip()] removes. *)
Definition isspace (c : ascii) : bool :=
  let n := nat_of_ascii c in
  (Nat.leb 9 n && Nat.leb n 13) || (Nat.leb 28 n && Nat.leb n 32)
  || Nat.eqb n 133 || Nat.eqb n 160.

(** [s.replace(old, new)] for a non-empty [old]. *)
Fixpoint replace_go (old new : string) (skip : nat) (s : string) : string :=
  match s with
  | EmptyString => EmptyString
  | String c s' =>
      match skip with
      | S k => replace_go old new k s'
      | O =>
          if startswith old s
          then new ++ replace_go old new (String.length old - 1) s'
          else String c (replace_go old new 0 s')
      end
  end.

Definition replace (old new s : string) : string := replace_go old new 0 s.

End PyStr.

(** ** Python values, exceptions and results *)

(** A JSON document as [response.json()] returns it. *)
#[local] Set Warnings "-register-all".
Inductive Json :=
| JNull
| JBool (b : bool)
| JNum (z : Z)
| JStr (s : string)
| JList (l : list Json)
| JDict (d : list (string * Json)).

(** The exceptions that the modelled code raises or meets.  All of them
    are subclasses of Python's [Exception]. *)
Inductive exn :=
| KeyError (key : string)
| AttributeError (attr : string)
| TypeError (msg : string)
| RequestException (detail : string)
| ConnectionError (url detail : string)
| LibraryError (detail : string)
| UnexpectedFormat
| NoDataReceived (url : string)
| NoAvailableSources (available primary_sources : list string)
| RowCountFailed (actual_rows min_rows : Z)
| NullRatioFailed (column : string)
| JSONDecodeError.

Inductive result (A : Type) :=
| Ok (a : A)
| Raised (e : exn).
Arguments Ok {A} a.
Arguments Raised {A} e.

Definition bind {A B : Type} (r : result A) (k : A -> result B) : result B :=
  match r with
  | Ok a => k a
  | Raised e => Raised e
  end.

Notation "'let!' x ':=' r 'in' k" := (bind r (fun x => k))
  (at level 10, x name, r at level 100, k at level 200).

(** [d[key]] on a mapping that may lack the key. *)
Definition getitem {A : Type} (key : string) (v : option A) : result A :=
  match v with
  | Some a => Ok a
  | None => Raised (KeyError key)
  end.

(** What the process can observe of the outside: the file system through
    [glob.glob], the network through [requests.head] (the status code)
    and [requests.get] (the [n]-th GET of a fetch, its URL and query
    parameters; the answer is the decoded body, or the exception of the
    transport, of [raise_for_status] or of the decoding), and the library
    functions [urljoin] and [str(hash(_))]. *)
Record World := {
  glob : string -> result (list string);
  http_head : string -> result Z;
  http_get : nat -> string -> list (string * Json) -> result Json;
  urljoin : string -> string -> string;
  hash_str : string -> string
}.

(** ** Sources ([io_sources.py]) *)

Module IoSources.

Definition test_file_exists (w : World) (pattern : string) : result bool :=
  let! matches := glob w pattern in
  Ok (Nat.ltb 0 (List.length matches)).

(** The pagination descriptor as the schema's [PaginationConfig] gives
    it: both keys present, hence a truthy mapping. *)
Record Pagination := { param : string; size : Z }.

(** The incremental-cursor descriptor ([SinceConfig]). *)
Record Since := { field : string }.

(** [d.get(key, default)] on a JSON object. *)
Fixpoint dict_get (key : string) (d : list (string * Json)) (default : Json) : Json :=
  match d with
  | [] => default
  | (k, v) :: d' => if String.eqb k key then v else dict_get key d' default
  end.

(** [params[key] = v] on the query-parameter mapping. *)
Fixpoint dict_set (key : string) (v : Json) (d : list (string * Json)) : list (string * Json) :=
  match d with
  | [] => [(key, v)]
  | (k, v') :: d' => if String.eqb k key then (k, v) :: d' else (k, v') :: dict_set key v d'
  end.

(** The record array of one response body. *)
Definition records_of (data : Json) : result (list Json) :=
  match data with
  | JList records => Ok records
  | JDict d =>
      match dict_get "data" d (dict_get "results" d (dict_get "items" d (JList []))) with
      | JList records => Ok records
      | _ => Ok [data]
      end
  | _ => Raised UnexpectedFormat
  end.

(** The state of the pagination loop, with what it did so far: the
    requests made and the warnings printed. *)
Record Fetch := {
  page : Z;
  all_data : list Json;
  requests_made : nat;
  warnings : list string
}.

Definition requested (st : Fetch) : Fetch :=
  {| page := page st; all_data := all_data st;
     requests_made := S (requests_made st); warnings := warnings st |}.

Definition extend (records : list Json) (st : Fetch) : Fetch :=
  {| page := page st; all_data := all_data st ++ records;
     requests_made := requests_made st; warnings := warnings st |}.

Definition next_page (st : Fetch) : Fetch :=
  {| page := (page st + 1)%Z; all_data := all_data st;
     requests_made := requests_made st; warnings := warnings st |}.

Definition warn (line : string) (st : Fetch) : Fetch :=
  {| page := page st; all_data := all_data st;
     requests_made := requests_made st; warnings := warnings st ++ [line] |}.

Definition page_size_of (pagination : option Pagination) : Z :=
  match pagination with Some pg => size pg | None => 100%Z end.

Definition request_params (pagination : option Pagination) (since : option Since)
    (page : Z) : list (string * Json) :=
  let page_param := match pagination with Some pg => param pg | None => "page" end in
  let params := dict_set "limit" (JNum (page_size_of pagination)) [(page_param, JNum page)] in
  match since with
  | Some sc => dict_set (field sc) (JStr "2024-01-01") params
  | None => params
  end.

Definition limit_warning : string := "Warning: Hit pagination safety limit of 100 pages".

(** The [while True] loop.  One unit of [fuel] is one iteration; [None]
    means the fuel ran out before the loop was left.  The result is the
    state at the exit, and the exception if the loop was left by one. *)
Fixpoint fetch_loop (w : World) (url : string) (pagination : option Pagination)
    (since : option Since) (fuel : nat) (st : Fetch) : option (Fetch * result unit) :=
  match fuel with
  | O => None
  | S fuel' =>
      let params := request_params pagination since (page st) in
      let response := http_get w (requests_made st) url params in
      let st := requested st in
      match response with
      | Raised (RequestException e) => Some (st, Raised (ConnectionError url e))
      | Raised e => Some (st, Raised e)
      | Ok data =>
          match records_of data with
          | Raised e => Some (st, Raised e)
          | Ok [] => Some (st, Ok tt)
          | Ok records =>
              let st := extend records st in
              if negb (bool_decide (is_Some pagination))
                 || Z.ltb (Z.of_nat (List.length records)) (page_size_of pagination)
              then Some (st, Ok tt)
              else
                let st := next_page st in
                if Z.ltb 100 (page st)
                then Some (warn limit_warning st, Ok tt)
                else fetch_loop w url pagination since fuel' st
          end
      end
  end.

(** The temporary columnar file that [rest_fetch] writes and returns:
    its name is made of the hash of the URL and of the last page number.
    Writing the accumulated records is taken to succeed. *)
Record RestFile := {
  file_name : string;
  file_page : Z;
  file_records : list Json
}.

Definition rest_fetch_start : Fetch :=
  {| page := 1; all_data := []; requests_made := 0; warnings := [] |}.

Definition rest_fetch (w : World) (fuel : nat) (base_url path : string)
    (pagination : option Pagination) (since : option Since)
    : option (Fetch * result RestFile) :=
  let url := urljoin w base_url path in
  match fetch_loop w url pagination since fuel rest_fetch_start with
  | None => None
  | Some (st, Raised e) => Some (st, Raised e)
  | Some (st, Ok _) =>
      match all_data st with
      | [] => Some (st, Raised (NoDataReceived url))
      | _ => Some (st, Ok {| file_name := "rest_" ++ hash_str w url;
                             file_page := page st;
                             file_records := all_data st |})
      end
  end.

End IoSources.

(** ** Pipeline operations ([etl_ops.py]) *)

Module EtlOps.

Definition quote_chars : string :=
  String PyStr.squote (String PyStr.dquote EmptyString).

(** The second piece of the split at [==], stripped of white space and
    then of both quote characters.  The second piece exists whenever
    the condition contains [env ==]. *)
Definition target_env (condition : string) : string :=
  match PyStr.split "==" condition with
  | _ :: piece :: _ =>
      PyStr.strip (fun c => PyStr.mem c quote_chars) (PyStr.strip PyStr.isspace piece)
  | _ => EmptyString
  end.

Definition unknown_condition_warning (condition : string) : string :=
  "Warning: Unknown condition '" ++ condition ++ "', defaulting to False".

(** [evaluate_condition] with what it prints. *)
Definition evaluate_condition_io (condition env : string) : bool * list string :=
  if String.eqb condition "true" then (true, [])
  else if String.eqb condition "false" then (false, [])
  else if PyStr.contains "env ==" condition
  then (String.eqb env (target_env condition), [])
  else (false, [unknown_condition_warning condition]).

Definition evaluate_condition (condition env : string) : bool :=
  fst (evaluate_condition_io condition env).

(** A source mapping.  The schema gives every source a [type], a [name]
    and an [enabled_if] (default [true]); the keys that only some
    variants have may be absent. *)
Record Source := {
  type : string;
  name : string;
  enabled_if : string;
  path : option string;
  base_url : option string
}.

(** The part of a specification that selection reads. *)
Record Spec := {
  sources : list Source;
  primary : list string
}.

Definition is_slash (c : ascii) : bool := Ascii.eqb c "/"%char.

(** The body of the [try] in [test_source_connectivity]. *)
Definition probe (w : World) (source : Source) : result bool :=
  if String.eqb (type source) "file" then
    let! pattern := getitem "path" (path source) in
    IoSources.test_file_exists w pattern
  else if String.eqb (type source) "rest" then
    let! base := getitem "base_url" (base_url source) in
    let! rel := getitem "path" (path source) in
    let url := PyStr.rstrip is_slash base ++ "/" ++ PyStr.lstrip is_slash rel in
    let! status_code := http_head w url in
    Ok (Z.eqb status_code 200)
  else if String.eqb (type source) "postgres" then Ok true
  else Ok false.

(** [except Exception]: report and answer [False]. *)
Definition test_source_connectivity (w : World) (source : Source) : result bool :=
  match probe w source with
  | Ok b => Ok b
  | Raised _ => Ok false
  end.

(** The inner loop of [select_source]: probe the enabled sources called
    [source_name], in order, until one passes. *)
Fixpoint probe_named (w : World) (source_name : string) (enabled_sources : list Source)
    : result bool :=
  match enabled_sources with
  | [] => Ok false
  | source :: rest =>
      if String.eqb (name source) source_name then
        let! reachable := test_source_connectivity w source in
        if reachable then Ok true else probe_named w source_name rest
      else probe_named w source_name rest
  end.

(** The outer loop: the priority list, in order. *)
Fixpoint first_available (w : World) (primary_sources : list string)
    (enabled_sources : list Source) : result (option string) :=
  match primary_sources with
  | [] => Ok None
  | source_name :: rest =>
      let! found := probe_named w source_name enabled_sources in
      if found then Ok (Some source_name) else first_available w rest enabled_sources
  end.

Definition enabled_sources (spec : Spec) (env : string) : list Source :=
  List.filter (fun source => evaluate_condition (enabled_if source) env) (sources spec).

Definition select_source (w : World) (spec : Spec) (env : string) : result string :=
  let primary_sources := primary spec in
  let enabled := enabled_sources spec env in
  let! selected := first_available w primary_sources enabled in
  match selected with
  | Some source_name => Ok source_name
  | None => Raised (NoAvailableSources (List.map name enabled) primary_sources)
  end.

(** The placeholder of a key: a dollar sign, the key in braces. *)
Definition placeholder (key : string) : string := "${" ++ key ++ "}".

(** The substitution loop of [run_sql] over [params.items()], a mapping
    from strings to strings in insertion order. *)
Fixpoint substitute (params : list (string * string)) (sql : string) : string :=
  match params with
  | [] => sql
  | (key, value) :: rest => substitute rest (PyStr.replace (placeholder key) value sql)
  end.

(** The in-memory connection that [run_sql] opens: what executing a
    statement answers, given the statements executed on the connection
    before it. *)
Definition Connection := list string -> string -> result unit.

(** [run_sql], given the text of the query file and the connection: the
    statements it sends, in order, and how the call ends.  Creating the
    scratch directory is taken to succeed. *)
Definition run_sql (w : World) (read_text : string -> result string) (conn : Connection)
    (data_path sql_path : string) (params : list (string * string))
    : list string * result string :=
  match read_text sql_path with
  | Raised e => ([], Raised e)
  | Ok sql_template =>
      let sql := substitute params sql_template in
      let output_path := "/tmp/etl_pipeline/transformed_" ++ hash_str w sql_path ++ ".parquet" in
      let view := "CREATE OR REPLACE VIEW source_data AS SELECT * FROM '" ++ data_path ++ "'" in
      let copy := "COPY (" ++ sql ++ ") TO '" ++ output_path ++ "' (FORMAT PARQUET)" in
      match conn [] view with
      | Raised e => ([view], Raised e)
      | Ok _ =>
          match conn [view] copy with
          | Raised e => ([view; copy], Raised e)
          | Ok _ => ([view; copy], Ok output_path)
          end
      end
  end.

End EtlOps.

(** ** Quality gate ([checks.py]) *)

Module Checks.

(** A columnar dataset: its column names and its rows.  A row maps a
    column to its value; a column without a value in a row is SQL
    [NULL] there. *)
Record Dataset := {
  columns : list string;
  rows : list (gmap string Json)
}.

(** The columnar files of the scratch directory, by path. *)
Abbreviation Files := (gmap string Dataset).



(** [COUNT( * )] and [COUNT(column)]. *)
Definition count_star (d : Dataset) : Z := Z.of_nat (List.length (rows d)).



(** A count as a double. *)
Definition to_double (z : Z) : float := PrimFloat.of_uint63 (Uint63.of_Z z).





End Checks.

(** ** Specification model ([spec_schema.py]) *)

Module SpecSchema.

(** The validated source variants. *)
Record FileSource := {
  file_type : string; file_name : string; file_path : string;
  file_format : string; file_enabled_if : string
}.

Record RestSource := {
  rest_type : string; rest_name : string; rest_base_url : string;
  rest_path : string; rest_pagination : option IoSources.Pagination;
  rest_since : option IoSources.Since; rest_enabled_if : string
}.

Record PostgresSource := {
  pg_type : string; pg_name : string; pg_conn_id : string; pg_table : string;
  pg_mode : string; pg_updated_at : option string; pg_enabled_if : string
}.

Inductive Source :=
| File (s : FileSource)
| Rest (s : RestSource)
| Postgres (s : PostgresSource).

Record ScheduleConfig := { on_demand : bool; daily_02 : bool; weekly_mon_06 : bool }.
Record TransformConfig := { sql_file : string; params : list (string * string) }.
Record SqliteOutput := { sqlite_path : string; sqlite_mode : string; sqlite_table : string }.
Record ParquetOutput := { dir : string; partition_by : list string }.
Record OutputsConfig := { sqlite : option SqliteOutput; parquet : option ParquetOutput }.
Record NullRatioCheck := { null_columns : list string; max : float }.
Record ChecksConfig := { min_rows : Z; null_ratio : option NullRatioCheck }.
Record SourceRoutingConfig := { primary : list string }.

Record PipelineSpec := {
  pipeline_name : string;
  schedule : ScheduleConfig;
  profile : string;
  sources : list Source;
  source_routing : SourceRoutingConfig;
  transform : TransformConfig;
  outputs : OutputsConfig;
  checks : ChecksConfig
}.

(** One entry of a source list as it is given: a mapping whose string
    keys may be absent.  Keys that no variant declares are ignored. *)
Record RawSource := {
  raw_type : option string;
  raw_name : option string;
  raw_path : option string;
  raw_format : option string;
  raw_base_url : option string;
  raw_pagination : option IoSources.Pagination;
  raw_since : option IoSources.Since;
  raw_conn_id : option string;
  raw_table : option string;
  raw_mode : option string;
  raw_updated_at : option string;
  raw_enabled_if : option string
}.

(** The keyword arguments of [PipelineSpec(...)].  [None] is an absent
    key; a value given for a nested model is one that the nested model
    accepts. *)
Record RawSpec := {
  raw_pipeline_name : option string;
  raw_schedule : option ScheduleConfig;
  raw_profile : option string;
  raw_sources : option (list RawSource);
  raw_source_routing : option SourceRoutingConfig;
  raw_transform : option TransformConfig;
  raw_outputs : option OutputsConfig;
  raw_checks : option ChecksConfig
}.

(** A field [regex] made of an anchored literal: the library matches
    it with [re.match], whose dollar also matches before one final
    newline. *)
Definition newline : string := String "010"%char EmptyString.

Definition matches_literal (literal s : string) : bool :=
  String.eqb s literal || String.eqb s (literal ++ newline).

(** The error entries of a validation error: the location as the library
    displays it (the field; under a list, the index and the key after
    it) and the message. *)
Definition Errors := list (string * string).

Definition as_file (r : RawSource) : option FileSource :=
  match raw_type r, raw_name r, raw_path r with
  | Some t, Some n, Some p =>
      if matches_literal "file" t
      then Some {| file_type := t; file_name := n; file_path := p;
                   file_format := default "csv" (raw_format r);
                   file_enabled_if := default "true" (raw_enabled_if r) |}
      else None
  | _, _, _ => None
  end.

Definition as_rest (r : RawSource) : option RestSource :=
  match raw_type r, raw_name r, raw_base_url r, raw_path r with
  | Some t, Some n, Some b, Some p =>
      if matches_literal "rest" t
      then Some {| rest_type := t; rest_name := n; rest_base_url := b; rest_path := p;
                   rest_pagination := raw_pagination r; rest_since := raw_since r;
                   rest_enabled_if := default "true" (raw_enabled_if r) |}
      else None
  | _, _, _, _ => None
  end.

Definition as_postgres (r : RawSource) : option PostgresSource :=
  match raw_type r, raw_name r, raw_conn_id r, raw_table r with
  | Some t, Some n, Some c, Some tb =>
      if matches_literal "postgres" t
      then Some {| pg_type := t; pg_name := n; pg_conn_id := c; pg_table := tb;
                   pg_mode := default "incremental" (raw_mode r);
                   pg_updated_at := raw_updated_at r;
                   pg_enabled_if := default "true" (raw_enabled_if r) |}
      else None
  | _, _, _, _ => None
  end.

(** The union of the three variants: the first that accepts wins. *)
Definition validate_source (r : RawSource) : option Source :=
  match as_file r with
  | Some s => Some (File s)
  | None =>
      match as_rest r with
      | Some s => Some (Rest s)
      | None => Postgres <$> as_postgres r
      end
  end.

(** The [@validator('sources')] of [PipelineSpec]. *)
Definition validate_sources (v : list Source) : string + list Source :=
  match v with
  | [] => inl "At least one source is required"
  | _ => inr v
  end.

(** A required field: its value, or its error entries. *)
Definition required {A : Type} (field : string) (v : option A) : Errors + A :=
  match v with
  | Some a => inr a
  | None => inl [(field, "field required")]
  end.

(** The location of an error as the library displays it: its items
    joined by an arrow. *)
Definition arrow : string := " -> ".

Definition regex_message (literal : string) : string :=
  "string does not match regex " ++ String PyStr.dquote ("^" ++ literal ++ "$")
  ++ String PyStr.dquote EmptyString.

(** The errors of one variant on a source mapping, by key, in the order
    of the variant's fields: a required key that is absent, and a type
    tag that does not match. *)
Definition key_errors {A : Type} (key : string) (v : option A) : Errors :=
  match v with
  | Some _ => []
  | None => [(key, "field required")]
  end.

Definition type_errors (literal : string) (r : RawSource) : Errors :=
  match raw_type r with
  | None => [("type", "field required")]
  | Some t => if matches_literal literal t then [] else [("type", regex_message literal)]
  end.

Definition file_errors (r : RawSource) : Errors :=
  (type_errors "file" r ++ key_errors "name" (raw_name r)
   ++ key_errors "path" (raw_path r))%list.

Definition rest_errors (r : RawSource) : Errors :=
  (type_errors "rest" r ++ key_errors "name" (raw_name r)
   ++ key_errors "base_url" (raw_base_url r) ++ key_errors "path" (raw_path r))%list.

Definition postgres_errors (r : RawSource) : Errors :=
  (type_errors "postgres" r ++ key_errors "name" (raw_name r)
   ++ key_errors "conn_id" (raw_conn_id r) ++ key_errors "table" (raw_table r))%list.

(** The errors of the element at index [i] of the source list: none if
    a variant accepts it, else those of every variant, each located
    under the element. *)
Definition element_errors (i : nat) (r : RawSource) : Errors :=
  match validate_source r with
  | Some _ => []
  | None =>
      List.map (fun entry => ("sources" ++ arrow ++ pretty i ++ arrow ++ fst entry, snd entry))
               (file_errors r ++ rest_errors r ++ postgres_errors r)
  end.

(** The [sources] field: every element against the union; then, if all
    were accepted, the validator. *)
Definition sources_field (v : option (list RawSource)) : Errors + list Source :=
  match v with
  | None => inl [("sources", "field required")]
  | Some raws =>
      match mapM validate_source raws with
      | None => inl (concat (imap element_errors raws))
      | Some l =>
          match validate_sources l with
          | inl msg => inl [("sources", msg)]
          | inr l' => inr l'
          end
      end
  end.

Definition errors_of {A : Type} (r : Errors + A) : Errors :=
  match r with inl e => e | inr _ => [] end.

(** [PipelineSpec(...)]: the fields in declaration order, all errors
    collected. *)
Definition construct (raw : RawSpec) : Errors + PipelineSpec :=
  let f_name := required "pipeline_name" (raw_pipeline_name raw) in
  let f_schedule := required "schedule" (raw_schedule raw) in
  let f_sources := sources_field (raw_sources raw) in
  let f_routing := required "source_routing" (raw_source_routing raw) in
  let f_transform := required "transform" (raw_transform raw) in
  let f_outputs := required "outputs" (raw_outputs raw) in
  let f_checks := required "checks" (raw_checks raw) in
  match f_name, f_schedule, f_sources, f_routing, f_transform, f_outputs, f_checks with
  | inr n, inr sch, inr srcs, inr rt, inr tr, inr out, inr chk =>
      inr {| pipeline_name := n; schedule := sch;
             profile := default "dev" (raw_profile raw);
             sources := srcs; source_routing := rt; transform := tr;
             outputs := out; checks := chk |}
  | _, _, _, _, _, _, _ =>
      inl (errors_of f_name ++ errors_of f_schedule ++ errors_of f_sources ++
           errors_of f_routing ++ errors_of f_transform ++ errors_of f_outputs ++
           errors_of f_checks)%list
  end.

End SpecSchema.

(** ** JSON text of a list of strings ([json.dumps], [json.loads]) *)

Module PyJson.

Definition backslash : ascii := "092"%char.

Definition hex_digit (n : nat) : ascii :=
  match n with
  | 0 => "0" | 1 => "1" | 2 => "2" | 3 => "3" | 4 => "4" | 5 => "5" | 6 => "6" | 7 => "7"
  | 8 => "8" | 9 => "9" | 10 => "a" | 11 => "b" | 12 => "c" | 13 => "d" | 14 => "e"
  | _ => "f"
  end%char.

Definition one (c : ascii) : string := String c EmptyString.

(** The escape of one character, with [ensure_ascii] on. *)
Definition escape_char (c : ascii) : string :=
  let n := nat_of_ascii c in
  if Nat.eqb n 34 then String backslash (one PyStr.dquote)
  else if Nat.eqb n 92 then String backslash (one backslash)
  else if Nat.eqb n 10 then String backslash "n"
  else if Nat.eqb n 13 then String backslash "r"
  else if Nat.eqb n 9 then String backslash "t"
  else if Nat.eqb n 8 then String backslash "b"
  else if Nat.eqb n 12 then String backslash "f"
  else if Nat.leb 32 n && Nat.leb n 126 then one c
  else String backslash ("u00" ++ one (hex_digit (n / 16)) ++ one (hex_digit (n mod 16))).

Fixpoint escape (s : string) : string :=
  match s with
  | EmptyString => EmptyString
  | String c s' => escape_char c ++ escape s'
  end.

Definition encode_str (s : string) : string :=
  String PyStr.dquote (escape s ++ one PyStr.dquote).

Fixpoint join_items (items : list string) : string :=
  match items with
  | [] => EmptyString
  | [x] => x
  | x :: rest => x ++ ", " ++ join_items rest
  end.

(** [json.dumps] of a list of strings. *)
Definition dumps (l : list string) : string :=
  "[" ++ join_items (List.map encode_str l) ++ "]".

(** The decoder, as a machine that reads one character at a time. *)
Inductive Mode :=
| BeforeArray
| BeforeFirst
| BeforeElement
| InString
| Escape
| Unicode (digits : list nat)
| AfterElement
| AfterArray.

Record Decoder := {
  mode : Mode;
  decoded : list string;
  current : string
}.

Definition is_json_space (c : ascii) : bool :=
  let n := nat_of_ascii c in
  Nat.eqb n 32 || Nat.eqb n 9 || Nat.eqb n 10 || Nat.eqb n 13.

Definition hex_value (c : ascii) : option nat :=
  let n := nat_of_ascii c in
  if Nat.leb 48 n && Nat.leb n 57 then Some (n - 48)
  else if Nat.leb 97 n && Nat.leb n 102 then Some (n - 87)
  else if Nat.leb 65 n && Nat.leb n 70 then Some (n - 55)
  else None.

Definition go (m : Mode) (d : Decoder) : option Decoder :=
  Some {| mode := m; decoded := decoded d; current := current d |}.

Definition push (c : ascii) (d : Decoder) : option Decoder :=
  Some {| mode := InString; decoded := decoded d; current := current d ++ one c |}.

Definition step (d : Decoder) (c : ascii) : option Decoder :=
  let n := nat_of_ascii c in
  match mode d with
  | BeforeArray =>
      if is_json_space c then Some d
      else if Nat.eqb n 91 then go BeforeFirst d
      else None
  | BeforeFirst =>
      if is_json_space c then Some d
      else if Nat.eqb n 93 then go AfterArray d
      else if Nat.eqb n 34 then go InString d
      else None
  | BeforeElement =>
      if is_json_space c then Some d
      else if Nat.eqb n 34 then go InString d
      else None
  | InString =>
      if Nat.eqb n 34
      then Some {| mode := AfterElement; decoded := decoded d ++ [current d];
                   current := EmptyString |}
      else if Nat.eqb n 92 then go Escape d
      else if Nat.ltb n 32 then None
      else push c d
  | Escape =>
      if Nat.eqb n 34 || Nat.eqb n 92 || Nat.eqb n 47 then push c d
      else if Nat.eqb n 98 then push "008"%char d
      else if Nat.eqb n 102 then push "012"%char d
      else if Nat.eqb n 110 then push "010"%char d
      else if Nat.eqb n 114 then push "013"%char d
      else if Nat.eqb n 116 then push "009"%char d
      else if Nat.eqb n 117 then go (Unicode []) d
      else None
  | Unicode digits =>
      match hex_value c with
      | None => None
      | Some v =>
          match digits with
          | [a; b; c'] =>
              let code := ((a * 16 + b) * 16 + c') * 16 + v in
              if Nat.ltb code 256 then push (ascii_of_nat code) d else None
          | _ => go (Unicode (digits ++ [v])) d
          end
      end
  | AfterElement =>
      if is_json_space c then Some d
      else if Nat.eqb n 44 then go BeforeElement d
      else if Nat.eqb n 93 then go AfterArray d
      else None
  | AfterArray =>
      if is_json_space c then Some d else None
  end.

Fixpoint run (d : Decoder) (s : string) : option Decoder :=
  match s with
  | EmptyString => Some d
  | String c s' =>
      match step d c with
      | Some d' => run d' s'
      | None => None
      end
  end.

Definition start : Decoder :=
  {| mode := BeforeArray; decoded := []; current := EmptyString |}.

(** [json.loads] of the text of a list of strings.  Any other text is
    reported as a decoding error: the column this is used on only ever
    holds what [dumps] wrote. *)
Definition loads (s : string) : result (list string) :=
  match run start s with
  | Some d =>
      match mode d with
      | AfterArray => Ok (decoded d)
      | _ => Raised JSONDecodeError
      end
  | None => Raised JSONDecodeError
  end.

End PyJson.

(** ** Run catalog ([catalog.py]) *)

Module Catalog.

(** A row of the [runs] table.  Timestamps are instants on a discrete
    clock (microseconds); the duration is their difference. *)
Record Row := {
  run_id : Z;
  pipeline : string;
  status : string;
  rows_out : option Z;
  output_paths : option string;
  started_at : option Z;
  ended_at : option Z;
  duration_seconds : option Z;
  error_message : option string;
  created_at : Z
}.









(** The order of [ORDER BY started_at]: [NULL] first, then by instant. *)
Definition ts_le (a b : option Z) : Prop :=
  match a, b with
  | None, _ => True
  | Some _, None => False
  | Some x, Some y => (x <= y)%Z
  end.

(** [DESC]: a row comes before the rows that started no later. *)
Definition started_no_earlier (r1 r2 : Row) : Prop :=
  ts_le (started_at r2) (started_at r1).

#[global] Instance ts_le_dec a b : Decision (ts_le a b).
Proof. destruct a, b; simpl; apply _. Defined.

#[global] Instance started_no_earlier_dec r1 r2 : Decision (started_no_earlier r1 r2).
Proof. unfold started_no_earlier; apply _. Defined.








End Catalog.

(** ** Notions used by the statements, and data for examples *)

(** What the probe answers, as a plain boolean. *)
Definition reachable (w : World) (source : EtlOps.Source) : bool :=
  match EtlOps.probe w source with
  | Ok b => b
  | Raised _ => false
  end.

(** A name is usable when some source of the specification carries it,
    is enabled for the environment and passes the probe. *)
Definition usable (w : World) (spec : EtlOps.Spec) (env source_name : string) : Prop :=
  exists source,
    In source (EtlOps.sources spec) /\ EtlOps.name source = source_name /\
    EtlOps.evaluate_condition (EtlOps.enabled_if source) env = true /\
    EtlOps.test_source_connectivity w source = Ok true.

(** A world for examples: one file on disk, one endpoint that answers
    [200], one that redirects, and a network failure for any other URL. *)
Definition demo_world : World :=
  {| glob := fun pattern =>
       if String.eqb pattern "./datasets/orders_*.csv"
       then Ok ["./datasets/orders_sample.csv"] else Ok [];
     http_head := fun url =>
       if String.eqb url "https://api.example.com/v1/orders" then Ok 200%Z
       else if String.eqb url "https://api.example.com/v1/moved" then Ok 301%Z
       else Raised (RequestException "connection refused");
     http_get := fun _ _ _ => Raised (RequestException "connection refused");
     urljoin := fun base rel => base ++ rel;
     hash_str := fun _ => "0" |}.

Definition demo_source (t n p b : string) : EtlOps.Source :=
  {| EtlOps.type := t; EtlOps.name := n; EtlOps.enabled_if := "true";
     EtlOps.path := Some p; EtlOps.base_url := Some b |}.

Definition demo_missing : EtlOps.Source := demo_source "file" "a" "/nonexistent/path/*.csv" EmptyString.
Definition demo_present : EtlOps.Source := demo_source "file" "b" "./datasets/orders_*.csv" EmptyString.
Definition demo_present_too : EtlOps.Source := demo_source "file" "a" "./datasets/orders_*.csv" EmptyString.

Definition demo_spec (a b : EtlOps.Source) : EtlOps.Spec :=
  {| EtlOps.sources := [a; b]; EtlOps.primary := [EtlOps.name a; EtlOps.name b] |}.

(** The grammar of conditions that the design document names: the two
    literals, and an equality test with the value in single or double
    quotes. *)
Definition is_quote (c : ascii) : bool := PyStr.mem c EtlOps.quote_chars.

Definition equality_test (q : ascii) (value : string) : string :=
  "env == " ++ String q (value ++ String q EmptyString).

Definition in_grammar (condition : string) : Prop :=
  condition = "true" \/ condition = "false" \/
  exists q value, is_quote q = true /\ condition = equality_test q value.

(** A value that a split at [==] and the stripping of quotes leave
    whole: no [==] inside, no quote character at either end. *)
Definition plain_value (value : string) : Prop :=
  PyStr.contains "==" value = false /\
  forall q, is_quote q = true ->
            PyStr.startswith (String q EmptyString) value = false /\
            PyStr.endswith (String q EmptyString) value = false.




(** A server for examples: two records on the first page, one on the
    second, nothing after. *)
Definition paged_world : World :=
  {| glob := fun _ => Ok [];
     http_head := fun _ => Ok 200%Z;
     http_get := fun n _ _ =>
       match n with
       | 0 => Ok (JList [JDict [("id", JNum 1)]; JDict [("id", JNum 2)]])
       | 1 => Ok (JDict [("data", JList [JDict [("id", JNum 3)]])])
       | _ => Ok (JList [])
       end;
     urljoin := fun base rel => base ++ rel;
     hash_str := fun _ => "0" |}.


Definition two_per_page : option IoSources.Pagination :=
  Some {| IoSources.param := "page"; IoSources.size := 2 |}.

(** What [construct] asks of its arguments: every required key present,
    every source accepted by a variant, and at least one source. *)
Definition accepted (raw : SpecSchema.RawSpec) : Prop :=
  is_Some (SpecSchema.raw_pipeline_name raw) /\
  is_Some (SpecSchema.raw_schedule raw) /\
  (exists raws, SpecSchema.raw_sources raw = Some raws /\ raws <> [] /\
                Forall (fun r => is_Some (SpecSchema.validate_source r)) raws) /\
  is_Some (SpecSchema.raw_source_routing raw) /\
  is_Some (SpecSchema.raw_transform raw) /\
  is_Some (SpecSchema.raw_outputs raw) /\
  is_Some (SpecSchema.raw_checks raw).

Definition no_sources_error : string * string :=
  ("sources", "At least one source is required").

(** The specification of the smoke test, with a pipeline name and a
    source list to choose. *)
Definition smoke_source : SpecSchema.RawSource :=
  {| SpecSchema.raw_type := Some "file"; SpecSchema.raw_name := Some "test";
     SpecSchema.raw_path := Some "./test.csv"; SpecSchema.raw_format := Some "csv";
     SpecSchema.raw_base_url := None; SpecSchema.raw_pagination := None;
     SpecSchema.raw_since := None; SpecSchema.raw_conn_id := None;
     SpecSchema.raw_table := None; SpecSchema.raw_mode := None;
     SpecSchema.raw_updated_at := None; SpecSchema.raw_enabled_if := Some "true" |}.

Definition smoke_spec (pipeline_name : string) (sources : list SpecSchema.RawSource)
    : SpecSchema.RawSpec :=
  {| SpecSchema.raw_pipeline_name := Some pipeline_name;
     SpecSchema.raw_schedule :=
       Some {| SpecSchema.on_demand := true; SpecSchema.daily_02 := false;
               SpecSchema.weekly_mon_06 := false |};
     SpecSchema.raw_profile := Some "dev";
     SpecSchema.raw_sources := Some sources;
     SpecSchema.raw_source_routing := Some {| SpecSchema.primary := ["test"] |};
     SpecSchema.raw_transform :=
       Some {| SpecSchema.sql_file := "test.sql"; SpecSchema.params := [] |};
     SpecSchema.raw_outputs :=
       Some {| SpecSchema.sqlite :=
                 Some {| SpecSchema.sqlite_path := "test.db";
                         SpecSchema.sqlite_mode := "merge";
                         SpecSchema.sqlite_table := "test" |};
               SpecSchema.parquet := None |};
     SpecSchema.raw_checks :=
       Some {| SpecSchema.min_rows := 1; SpecSchema.null_ratio := None |} |}.

(** The null ratio of a column as the query computes it. *)
Definition non_null_rows (column : string) (d : Checks.Dataset) : Z :=
  Z.of_nat (List.length
              (List.filter (fun r : gmap string Json => bool_decide (is_Some (r !! column)))
                           (Checks.rows d))).

Definition null_ratio (column : string) (d : Checks.Dataset) : float :=
  PrimFloat.div
    (PrimFloat.mul (Checks.to_double (Checks.count_star d - non_null_rows column d)) 1%float)
    (Checks.to_double (Checks.count_star d)).



(** A query template as its author sees it: literal text and
    placeholders.  [render] is the text of the file; [fill] is the
    template with every placeholder of a mapped key replaced by the
    mapped value, as the design document words the substitution. *)
Inductive Segment :=
| Text (s : string)
| Hole (key : string).

Definition render_segment (seg : Segment) : string :=
  match seg with
  | Text s => s
  | Hole key => EtlOps.placeholder key
  end.

Fixpoint render (segs : list Segment) : string :=
  match segs with
  | [] => EmptyString
  | seg :: rest => render_segment seg ++ render rest
  end.

(** [params[key]], if the key is there. *)
Fixpoint lookup_param (key : string) (params : list (string * string)) : option string :=
  match params with
  | [] => None
  | (k, v) :: rest => if String.eqb k key then Some v else lookup_param key rest
  end.

Definition fill_segment (params : list (string * string)) (seg : Segment) : Segment :=
  match seg with
  | Text s => Text s
  | Hole key =>
      match lookup_param key params with
      | Some value => Text value
      | None => Hole key
      end
  end.

Definition fill (params : list (string * string)) (segs : list Segment) : list Segment :=
  List.map (fill_segment params) segs.

(** Text without a dollar sign; keys without a dollar sign or a closing
    brace. *)
Definition plain_text (s : string) : Prop := PyStr.mem "$"%char s = false.

Definition plain_key (key : string) : Prop :=
  PyStr.mem "$"%char key = false /\ PyStr.mem "}"%char key = false.

Definition plain_segment (seg : Segment) : Prop :=
  match seg with
  | Text s => plain_text s
  | Hole key => plain_key key
  end.

Definition plain_template (segs : list Segment) : Prop := Forall plain_segment segs.

Definition plain_params (params : list (string * string)) : Prop :=
  Forall (fun kv => plain_key (fst kv) /\ plain_text (snd kv)) params.

(** The two statements that [run_sql] sends for a query. *)
Definition view_statement (data_path : string) : string :=
  "CREATE OR REPLACE VIEW source_data AS SELECT * FROM '" ++ data_path ++ "'".

Definition copy_statement (sql output_path : string) : string :=
  "COPY (" ++ sql ++ ") TO '" ++ output_path ++ "' (FORMAT PARQUET)".

(** Connections for examples: one that accepts every statement, and one
    on which the data file cannot be read. *)
Definition accepting_connection : EtlOps.Connection := fun _ _ => Ok tt.

Definition no_data_connection : EtlOps.Connection :=
  fun _ statement =>
    if PyStr.startswith "CREATE OR REPLACE VIEW" statement
    then Raised (LibraryError "IO Error: No files found")
    else Ok tt.











(** ** Exceptions and results of the remaining operations *)

(** The exceptions that the operations below raise themselves, by their
    Python class and message, beside those that come up from a call
    ([Propagated]). *)
Inductive failure :=
| Propagated (e : exn)
| FileNotFoundError (msg : string)
| ValueError (msg : string)
| NotImplementedError (msg : string)
| AssertionError (msg : string).

Inductive outcome (A : Type) :=
| Returned (a : A)
| Failed (f : failure).
Arguments Returned {A} a.
Arguments Failed {A} f.

Definition propagate {A : Type} (r : result A) : outcome A :=
  match r with
  | Ok a => Returned a
  | Raised e => Failed (Propagated e)
  end.

(** Truth value of a JSON value, as [if value:] tests it. *)
Definition truthy (v : Json) : bool :=
  match v with
  | JNull => false
  | JBool b => b
  | JNum z => negb (Z.eqb z 0)
  | JStr s => negb (String.eqb s EmptyString)
  | JList l => match l with [] => false | _ => true end
  | JDict d => match d with [] => false | _ => true end
  end.

(** [s.lower()] on characters below 256. *)
Definition lower_char (c : ascii) : ascii :=
  let n := nat_of_ascii c in
  if (Nat.leb 65 n && Nat.leb n 90) || (Nat.leb 192 n && Nat.leb n 214)
     || (Nat.leb 216 n && Nat.leb n 222)
  then ascii_of_nat (n + 32) else c.

Fixpoint lower (s : string) : string :=
  match s with
  | EmptyString => EmptyString
  | String c s' => String (lower_char c) (lower s')
  end.

(** ** Extraction ([io_sources.read_file_to_duckdb], [io_sources.pg_fetch],
    [etl_ops.extract]) *)

Module Extraction.

(** The query engine: what executing a statement answers. *)
Definition Engine := string -> result unit.

(** The statements sent to the engine, and how the call ended. *)
Definition Traced (A : Type) : Type := list string * outcome A.

Definition read_csv_query (pattern options_str temp_file : string) : string :=
  if String.eqb options_str EmptyString
  then "COPY (SELECT * FROM read_csv_auto('" ++ pattern ++ "')) TO '" ++ temp_file
       ++ "' (FORMAT PARQUET)"
  else "COPY (SELECT * FROM read_csv_auto('" ++ pattern ++ "', " ++ options_str
       ++ ")) TO '" ++ temp_file ++ "' (FORMAT PARQUET)".

(** Creating the scratch directory is taken to succeed. *)
Definition read_file_to_duckdb (w : World) (engine : Engine) (pattern fmt : string)
    (options : list (string * Json)) : Traced string :=
  match IoSources.test_file_exists w pattern with
  | Raised e => ([], Failed (Propagated e))
  | Ok false => ([], Failed (FileNotFoundError ("No files found matching pattern: " ++ pattern)))
  | Ok true =>
      let temp_file := "/tmp/etl_pipeline/extracted_" ++ hash_str w pattern ++ ".parquet" in
      if String.eqb (lower fmt) "csv" then
        let read_options :=
          if truthy (IoSources.dict_get "header" options (JBool true))
          then ["header=true"] else [] in
        let options_str := PyJson.join_items read_options in
        let query := read_csv_query pattern options_str temp_file in
        match engine query with
        | Ok _ => ([query], Returned temp_file)
        | Raised e => ([query], Failed (Propagated e))
        end
      else ([], Failed (ValueError ("Unsupported file format: " ++ fmt)))
  end.

Definition pg_fetch (conn_id table mode : string) (updated_at : option string)
    : outcome string :=
  Failed (NotImplementedError "PostgreSQL connector not implemented in Phase A MVP").

(** A source mapping with the keys that extraction reads beside those
    that selection reads. *)
Record SourceDict := {
  common : EtlOps.Source;
  format : option string;
  options : option (list (string * Json));
  pagination : option IoSources.Pagination;
  since : option IoSources.Since;
  conn_id : option string;
  table : option string;
  mode : option string;
  updated_at : option string
}.

(** What extraction hands back: the path of a columnar file, or the
    file that [rest_fetch] wrote. *)
Inductive Extracted :=
| TempFile (path : string)
| RestTemp (file : IoSources.RestFile).

(** [extract]; [None] only when the fuel of the pagination loop ran out. *)
Definition extract (w : World) (engine : Engine) (fuel : nat) (source : SourceDict)
    : option (Traced Extracted) :=
  let t := EtlOps.type (common source) in
  if String.eqb t "file" then
    match EtlOps.path (common source), format source with
    | None, _ => Some ([], Failed (Propagated (KeyError "path")))
    | Some _, None => Some ([], Failed (Propagated (KeyError "format")))
    | Some pattern, Some fmt =>
        match read_file_to_duckdb w engine pattern fmt (default [] (options source)) with
        | (sent, Returned p) => Some (sent, Returned (TempFile p))
        | (sent, Failed f) => Some (sent, Failed f)
        end
    end
  else if String.eqb t "rest" then
    match EtlOps.base_url (common source), EtlOps.path (common source) with
    | None, _ => Some ([], Failed (Propagated (KeyError "base_url")))
    | Some _, None => Some ([], Failed (Propagated (KeyError "path")))
    | Some base, Some rel =>
        match IoSources.rest_fetch w fuel base rel (pagination source) (since source) with
        | None => None
        | Some (_, Ok file) => Some ([], Returned (RestTemp file))
        | Some (_, Raised e) => Some ([], Failed (Propagated e))
        end
    end
  else if String.eqb t "postgres" then
    match conn_id source, table source with
    | None, _ => Some ([], Failed (Propagated (KeyError "conn_id")))
    | Some _, None => Some ([], Failed (Propagated (KeyError "table")))
    | Some c, Some tb =>
        match pg_fetch c tb (default "incremental" (mode source)) (updated_at source) with
        | Returned p => Some ([], Returned (TempFile p))
        | Failed f => Some ([], Failed f)
        end
    end
  else Some ([], Failed (ValueError ("Unknown source type: " ++ t))).

End Extraction.

(** ** Row-store sink ([etl_ops.write_sqlite]) *)

Module Sinks.

(** The tables of the attached database file, by name; a file that does
    not exist yet has none. *)
Abbreviation Tables := (gmap string Checks.Dataset).

Section Statements.

(** Whether the engine accepts the rows of the second dataset into a
    table that holds the first (same shape, values that convert). *)
Variable insertable : Checks.Dataset -> Checks.Dataset -> bool.





End Statements.

End Sinks.

(** ** Model router ([router.py]) *)

Module Router.

(** One call of the model client, and the client: what it answers, a
    response mapping or an exception. *)
Record Request := {
  model : string;
  prompt : string;
  max_tokens : Z;
  temperature : float
}.

Definition Client := Request -> result (list (string * Json)).

Record LLMRouter := {
  mode : string;
  closed : Client
}.

(** The keyword arguments that [generate] reads. *)
Record Kwargs := {
  kw_model : option string;
  kw_max_tokens : option Z;
  kw_temperature : option float
}.

(** The double nearest to [0.1]. *)
Definition default_temperature : float := 0x1.999999999999ap-4%float.

Definition key_required : string :=
  "GEMINI_API_KEY environment variable required for closed mode".

(** [LLMRouter(mode, closed_client)], given the process environment and
    the constructor of the client; building a client from a key is taken
    to succeed. *)
Definition init (getenv : string -> option string) (make_client : string -> Client)
    (mode : string) (closed_client : option Client) : outcome LLMRouter :=
  if String.eqb mode "closed" then
    match getenv "GEMINI_API_KEY" with
    | None => Failed (ValueError key_required)
    | Some api_key =>
        if String.eqb api_key EmptyString then Failed (ValueError key_required)
        else Returned {| mode := mode;
                         closed := match closed_client with
                                   | Some client => client
                                   | None => make_client api_key
                                   end |}
    end
  else Failed (ValueError ("Phase A only supports mode='closed', got " ++ mode)).

Fixpoint response_item (key : string) (response : list (string * Json)) : result Json :=
  match response with
  | [] => Raised (KeyError key)
  | (k, v) :: rest => if String.eqb k key then Ok v else response_item key rest
  end.

Definition generate (router : LLMRouter) (prompt : string) (kwargs : Kwargs) : outcome Json :=
  if String.eqb (mode router) "closed" then
    match closed router {| model := default "gemini-2.5-flash" (kw_model kwargs);
                           prompt := prompt;
                           max_tokens := default 2000%Z (kw_max_tokens kwargs);
                           temperature := default default_temperature (kw_temperature kwargs) |} with
    | Raised e => Failed (Propagated e)
    | Ok response => propagate (response_item "content" response)
    end
  else Failed (AssertionError "Phase A uses closed LLM only").

End Router.

(** ** Request parser ([a1_parser.py]): the cleaning of the response *)

Module RequestParser.

(** [s[n:]] and [s[:-n]] for [n] no longer than [s]. *)
Fixpoint drop (n : nat) (s : string) : string :=
  match n, s with
  | S n', String _ s' => drop n' s'
  | _, _ => s
  end.

Fixpoint take (n : nat) (s : string) : string :=
  match n, s with
  | S n', String c s' => String c (take n' s')
  | _, _ => EmptyString
  end.

Definition drop_last (n : nat) (s : string) : string :=
  take (String.length s - n) s.

(** The text that [parse_request] hands to the JSON decoder. *)
Definition clean_response (response : string) : string :=
  let response := PyStr.strip PyStr.isspace response in
  let response :=
    if PyStr.startswith "```json" response then drop 7 response else response in
  if PyStr.endswith "```" response then drop_last 3 response else response.

End RequestParser.

(** ** Pipeline generator ([a2_generator.py]): the transform query *)

Module Generator.

(** The literal text of the query template, between its tags. *)
Definition sql_head : string :=
"-- Generated SQL for ".

Definition sql_transform : string :=
"
-- Transform: ".

Definition sql_base : string :=
"

WITH base AS (
  -- Source data (will be dynamically populated by extract task)
  SELECT * FROM source_data
),
".

Definition sql_dedupe_open : string :=
"
deduped AS (
  SELECT *
  FROM (
    SELECT *, 
           ROW_NUMBER() OVER (
             PARTITION BY ".

Definition sql_dedupe_order : string :=
" 
             ORDER BY ".

Definition sql_dedupe_close : string :=
" DESC
           ) AS rn
    FROM base
  ) t
  WHERE rn = 1
),
final AS (
  SELECT * EXCLUDE (rn)
  FROM deduped
)
".

Definition sql_plain : string :=
"
final AS (
  SELECT * FROM base
)
".

Definition sql_tail : string :=
"
SELECT *, 
       CURRENT_DATE AS ingest_date,
       CURRENT_TIMESTAMP AS processed_at
FROM final;".

(** [generate_sql]: the template rendered for a specification. *)
Definition generate_sql (spec : SpecSchema.PipelineSpec) : string :=
  let params := SpecSchema.params (SpecSchema.transform spec) in
  let dedupe_key := default EmptyString (lookup_param "dedupe_key" params) in
  sql_head ++ SpecSchema.pipeline_name spec ++
  sql_transform ++ SpecSchema.sql_file (SpecSchema.transform spec) ++
  sql_base ++
  (if String.eqb dedupe_key EmptyString
   then sql_plain
   else sql_dedupe_open ++ dedupe_key ++
        sql_dedupe_order ++ default "created_at" (lookup_param "latest_col" params) ++
        sql_dedupe_close) ++
  sql_tail.

End Generator.

(** ** Further notions used by the statements *)


(** A priority name is known when some source of the specification
    carries it. *)
Definition known (spec : EtlOps.Spec) (source_name : string) : bool :=
  existsb (fun s => String.eqb (EtlOps.name s) source_name) (EtlOps.sources spec).

(** The specification with the unknown names taken out of the priority
    list. *)
Definition without_unknown (spec : EtlOps.Spec) : EtlOps.Spec :=
  {| EtlOps.sources := EtlOps.sources spec;
     EtlOps.primary := List.filter (known spec) (EtlOps.primary spec) |}.

(** A REST source mapping with the given base URL and path. *)
Definition rest_source (n cond base rel : string) : EtlOps.Source :=
  {| EtlOps.type := "rest"; EtlOps.name := n; EtlOps.enabled_if := cond;
     EtlOps.path := Some rel; EtlOps.base_url := Some base |}.

(** The records that the [k]-th request of a fetch brings: those of its
    response body, none if the request or the reading of the body
    raises. *)
Definition page_records (w : World) (url : string)
    (pagination : option IoSources.Pagination) (since : option IoSources.Since)
    (k : nat) : list Json :=
  match http_get w k url (IoSources.request_params pagination since (Z.of_nat k + 1)) with
  | Ok data =>
      match IoSources.records_of data with
      | Ok records => records
      | Raised _ => []
      end
  | Raised _ => []
  end.

(** [key in d] on a JSON object. *)
Definition has_key (key : string) (d : list (string * Json)) : bool :=
  existsb (fun kv => String.eqb (fst kv) key) d.

(** A server whose second page cannot be reached, and one that answers
    with a single object. *)
Definition flaky_world : World :=
  {| glob := fun _ => Ok [];
     http_head := fun _ => Ok 200%Z;
     http_get := fun n _ _ =>
       match n with
       | 0 => Ok (JList [JDict [("id", JNum 1)]; JDict [("id", JNum 2)]])
       | _ => Raised (RequestException "timed out")
       end;
     urljoin := fun base rel => base ++ rel;
     hash_str := fun _ => "0" |}.

Definition single_object_world : World :=
  {| glob := fun _ => Ok [];
     http_head := fun _ => Ok 200%Z;
     http_get := fun _ _ _ => Ok (JDict [("id", JNum 1); ("email", JStr "a@example.com")]);
     urljoin := fun base rel => base ++ rel;
     hash_str := fun _ => "0" |}.

(** The enable condition and the name of a validated source. *)
Definition enabled_if_of (s : SpecSchema.Source) : string :=
  match s with
  | SpecSchema.File f => SpecSchema.file_enabled_if f
  | SpecSchema.Rest r => SpecSchema.rest_enabled_if r
  | SpecSchema.Postgres p => SpecSchema.pg_enabled_if p
  end.

Definition name_of (s : SpecSchema.Source) : string :=
  match s with
  | SpecSchema.File f => SpecSchema.file_name f
  | SpecSchema.Rest r => SpecSchema.rest_name r
  | SpecSchema.Postgres p => SpecSchema.pg_name p
  end.

(** What a source mapping must hold to be accepted: a type tag that
    matches one of the variants, a name, and the keys that the variant
    requires. *)
Definition well_tagged (r : SpecSchema.RawSource) : Prop :=
  exists t n,
    SpecSchema.raw_type r = Some t /\ SpecSchema.raw_name r = Some n /\
    ((SpecSchema.matches_literal "file" t = true /\ is_Some (SpecSchema.raw_path r)) \/
     (SpecSchema.matches_literal "rest" t = true /\
      is_Some (SpecSchema.raw_base_url r) /\ is_Some (SpecSchema.raw_path r)) \/
     (SpecSchema.matches_literal "postgres" t = true /\
      is_Some (SpecSchema.raw_conn_id r) /\ is_Some (SpecSchema.raw_table r))).

(** Sources for examples: a REST entry without its base URL, and a file
    entry that leaves the enable condition out. *)
Definition rest_without_base : SpecSchema.RawSource :=
  {| SpecSchema.raw_type := Some "rest"; SpecSchema.raw_name := Some "orders_api";
     SpecSchema.raw_path := Some "/v1/orders"; SpecSchema.raw_format := None;
     SpecSchema.raw_base_url := None; SpecSchema.raw_pagination := None;
     SpecSchema.raw_since := None; SpecSchema.raw_conn_id := None;
     SpecSchema.raw_table := None; SpecSchema.raw_mode := None;
     SpecSchema.raw_updated_at := None; SpecSchema.raw_enabled_if := None |}.

Definition file_without_condition : SpecSchema.RawSource :=
  {| SpecSchema.raw_type := Some "file"; SpecSchema.raw_name := Some "orders_csv";
     SpecSchema.raw_path := Some "./datasets/orders_*.csv"; SpecSchema.raw_format := None;
     SpecSchema.raw_base_url := None; SpecSchema.raw_pagination := None;
     SpecSchema.raw_since := None; SpecSchema.raw_conn_id := None;
     SpecSchema.raw_table := None; SpecSchema.raw_mode := None;
     SpecSchema.raw_updated_at := None; SpecSchema.raw_enabled_if := None |}.

(** Source mappings for examples of extraction. *)
Definition file_dict (pattern fmt : string) : Extraction.SourceDict :=
  {| Extraction.common := demo_source "file" "orders_csv" pattern EmptyString;
     Extraction.format := Some fmt;
     Extraction.options := Some [("header", JBool true)];
     Extraction.pagination := None; Extraction.since := None;
     Extraction.conn_id := None; Extraction.table := None;
     Extraction.mode := None; Extraction.updated_at := None |}.

Definition postgres_dict : Extraction.SourceDict :=
  {| Extraction.common := demo_source "postgres" "orders_pg" EmptyString EmptyString;
     Extraction.format := None; Extraction.options := None;
     Extraction.pagination := None; Extraction.since := None;
     Extraction.conn_id := Some "warehouse"; Extraction.table := Some "orders";
     Extraction.mode := None; Extraction.updated_at := Some "updated_at" |}.

Definition obliging_engine : Extraction.Engine := fun _ => Ok tt.


(** A string of white space only. *)
Fixpoint all_space (s : string) : bool :=
  match s with
  | EmptyString => true
  | String c s' => PyStr.isspace c && all_space s'
  end.

(** A client and environments for examples. *)
Definition echo_client : Router.Client :=
  fun request => Ok [("content", JStr (Router.prompt request))].

Definition no_environment : string -> option string := fun _ => None.

Definition key_environment : string -> option string :=
  fun name => if String.eqb name "GEMINI_API_KEY" then Some "secret" else None.

Definition no_kwargs : Router.Kwargs :=
  {| Router.kw_model := None; Router.kw_max_tokens := None; Router.kw_temperature := None |}.

(** A validated specification for examples, with the transform
    parameters to choose. *)
Definition orders_spec (params : list (string * string)) : SpecSchema.PipelineSpec :=
  {| SpecSchema.pipeline_name := "orders";
     SpecSchema.schedule := {| SpecSchema.on_demand := true; SpecSchema.daily_02 := false;
                               SpecSchema.weekly_mon_06 := false |};
     SpecSchema.profile := "dev";
     SpecSchema.sources := [];
     SpecSchema.source_routing := {| SpecSchema.primary := [] |};
     SpecSchema.transform := {| SpecSchema.sql_file := "orders.sql";
                                SpecSchema.params := params |};
     SpecSchema.outputs := {| SpecSchema.sqlite := None; SpecSchema.parquet := None |};
     SpecSchema.checks := {| SpecSchema.min_rows := 1; SpecSchema.null_ratio := None |} |}.

(** An equality test with white space after the operator and at the end. *)
Definition spaced_equality_test (ws1 ws2 : string) (q : ascii) (value : string) : string :=
  "env ==" ++ ws1 ++ String q (value ++ String q EmptyString) ++ ws2.

(** The required keys of a specification that are absent. *)
Definition absent {A : Type} (field : string) (v : option A) : list string :=
  match v with
  | Some _ => []
  | None => [field]
  end.

Definition missing_fields (raw : SpecSchema.RawSpec) : list string :=
  absent "pipeline_name" (SpecSchema.raw_pipeline_name raw) ++
  absent "schedule" (SpecSchema.raw_schedule raw) ++
  absent "sources" (SpecSchema.raw_sources raw) ++
  absent "source_routing" (SpecSchema.raw_source_routing raw) ++
  absent "transform" (SpecSchema.raw_transform raw) ++
  absent "outputs" (SpecSchema.raw_outputs raw) ++
  absent "checks" (SpecSchema.raw_checks raw).


(** A location at a key of the specification itself, not under one. *)
Definition top_level (location : string) : bool :=
  negb (PyStr.contains SpecSchema.arrow location).

(** The keys of the specification that a validation error reports as
    required. *)
Definition reported_missing (errors : SpecSchema.Errors) : list string :=
  List.map fst
    (List.filter (fun entry => top_level (fst entry) && String.eqb (snd entry) "field required")
                 errors).

(** A specification given without its schedule, its profile and its checks. *)
Definition without_keys (raw : SpecSchema.RawSpec) : SpecSchema.RawSpec :=
  {| SpecSchema.raw_pipeline_name := SpecSchema.raw_pipeline_name raw;
     SpecSchema.raw_schedule := None;
     SpecSchema.raw_profile := None;
     SpecSchema.raw_sources := SpecSchema.raw_sources raw;
     SpecSchema.raw_source_routing := SpecSchema.raw_source_routing raw;
     SpecSchema.raw_transform := SpecSchema.raw_transform raw;
     SpecSchema.raw_outputs := SpecSchema.raw_outputs raw;
     SpecSchema.raw_checks := None |}.
(** * Properties *)

#[local] Arguments String.append : simpl nomatch.

(** ** Connectivity probe *)

Section Probe.
Import EtlOps.
Variable w : World.

Lemma test_source_connectivity_reachable source :
  test_source_connectivity w source = Ok (reachable w source).
Proof. unfold test_source_connectivity, reachable. now destruct (probe w source). Qed.

Lemma probe_file source pattern :
  type source = "file" -> path source = Some pattern ->
  probe w source = IoSources.test_file_exists w pattern.
Proof. intros Ht Hp. unfold probe. now rewrite Ht, Hp. Qed.

Lemma probe_rest source base rel :
  type source = "rest" -> base_url source = Some base -> path source = Some rel ->
  probe w source =
    bind (http_head w (PyStr.rstrip is_slash base ++ "/" ++ PyStr.lstrip is_slash rel))
         (fun status_code => Ok (Z.eqb status_code 200)).
Proof. intros Ht Hb Hp. unfold probe. now rewrite Ht, Hb, Hp. Qed.

Lemma probe_postgres source : type source = "postgres" -> probe w source = Ok true.
Proof. intros Ht. unfold probe. now rewrite Ht. Qed.

End Probe.

(** C9: the connectivity probe always returns a boolean and never leaves
    by an exception; a file source is reachable exactly when its glob
    pattern matches at least one path; a database source is always
    reachable; an exception raised while probing gives [False]. *)
Theorem probe_never_raises (w : World) (source : EtlOps.Source) :
  (exists b, EtlOps.test_source_connectivity w source = Ok b) /\
  (forall pattern matches,
      EtlOps.type source = "file" -> EtlOps.path source = Some pattern ->
      glob w pattern = Ok matches ->
      (EtlOps.test_source_connectivity w source = Ok true <-> matches <> [])) /\
  (EtlOps.type source = "postgres" -> EtlOps.test_source_connectivity w source = Ok true) /\
  (forall e, EtlOps.probe w source = Raised e ->
             EtlOps.test_source_connectivity w source = Ok false).
Proof.
  repeat split.
  - exists (reachable w source). apply test_source_connectivity_reachable.
  - rewrite test_source_connectivity_reachable. unfold reachable.
    rewrite (probe_file w source pattern) by assumption.
    unfold IoSources.test_file_exists. rewrite H1. simpl.
    destruct matches; simpl; [discriminate | intros _; discriminate].
  - intros Hne. rewrite test_source_connectivity_reachable. unfold reachable.
    rewrite (probe_file w source pattern) by assumption.
    unfold IoSources.test_file_exists. rewrite H1. simpl.
    destruct matches; [contradiction | reflexivity].
  - intros Ht. rewrite test_source_connectivity_reachable. unfold reachable.
    now rewrite probe_postgres.
  - intros e He. rewrite test_source_connectivity_reachable. unfold reachable.
    now rewrite He.
Qed.

Lemma probe_never_raises_witness :
  EtlOps.test_source_connectivity demo_world
    (demo_source "file" "orders_csv" "./datasets/orders_*.csv" EmptyString) = Ok true /\
  EtlOps.test_source_connectivity demo_world
    (demo_source "postgres" "orders_pg" EmptyString EmptyString) = Ok true /\
  EtlOps.test_source_connectivity demo_world
    (demo_source "rest" "orders_api" "/v1/down" "https://api.example.com") = Ok false.
Proof.
  split; [| split].
  - apply (proj1 (proj2 (probe_never_raises demo_world
             (demo_source "file" "orders_csv" "./datasets/orders_*.csv" EmptyString)))
             "./datasets/orders_*.csv" ["./datasets/orders_sample.csv"]);
      [reflexivity | reflexivity | reflexivity | discriminate].
  - apply (proj1 (proj2 (proj2 (probe_never_raises demo_world
             (demo_source "postgres" "orders_pg" EmptyString EmptyString))))).
    reflexivity.
  - apply (proj2 (proj2 (proj2 (probe_never_raises demo_world
             (demo_source "rest" "orders_api" "/v1/down" "https://api.example.com"))))
             (RequestException "connection refused")).
    reflexivity.
Defined.

(** C10: a REST source is reachable exactly when the HEAD request returns
    without an exception and its status code is 200. *)
Theorem rest_reachable_iff_200 (w : World) (source : EtlOps.Source) (base rel : string) :
  EtlOps.type source = "rest" ->
  EtlOps.base_url source = Some base ->
  EtlOps.path source = Some rel ->
  (EtlOps.test_source_connectivity w source = Ok true <->
   http_head w (PyStr.rstrip EtlOps.is_slash base ++ "/" ++ PyStr.lstrip EtlOps.is_slash rel)
     = Ok 200%Z).
Proof.
  intros Ht Hb Hp. rewrite test_source_connectivity_reachable. unfold reachable.
  rewrite (probe_rest w source base rel) by assumption.
  destruct (http_head w _) as [status|e]; simpl.
  - split; intros H.
    + injection H as H. apply Z.eqb_eq in H. now subst.
    + injection H as H. now subst.
  - split; discriminate.
Qed.

Lemma rest_reachable_iff_200_witness :
  (EtlOps.test_source_connectivity demo_world
     (demo_source "rest" "orders_api" "/v1/orders" "https://api.example.com/") = Ok true <->
   http_head demo_world "https://api.example.com/v1/orders" = Ok 200%Z) /\
  (EtlOps.test_source_connectivity demo_world
     (demo_source "rest" "orders_api" "/v1/moved" "https://api.example.com/") = Ok true <->
   http_head demo_world "https://api.example.com/v1/moved" = Ok 200%Z).
Proof.
  split.
  - apply (rest_reachable_iff_200 demo_world
             (demo_source "rest" "orders_api" "/v1/orders" "https://api.example.com/")
             "https://api.example.com/" "/v1/orders"); reflexivity.
  - apply (rest_reachable_iff_200 demo_world
             (demo_source "rest" "orders_api" "/v1/moved" "https://api.example.com/")
             "https://api.example.com/" "/v1/moved"); reflexivity.
Defined.

(** A redirect answered without any exception still makes the source
    unreachable. *)
Example rest_redirect_unreachable :
  EtlOps.test_source_connectivity demo_world
    (demo_source "rest" "orders_api" "/v1/moved" "https://api.example.com/") = Ok false.
Proof. reflexivity. Qed.

(** ** Source selector *)

Section Selector.
Import EtlOps.
Variable w : World.

Lemma probe_named_existsb source_name enabled :
  probe_named w source_name enabled =
    Ok (existsb (fun s => String.eqb (name s) source_name && reachable w s) enabled).
Proof.
  induction enabled as [|s rest IH]; simpl; [reflexivity|].
  destruct (String.eqb (name s) source_name); simpl; [|exact IH].
  rewrite test_source_connectivity_reachable. simpl.
  destruct (reachable w s); simpl; [reflexivity | exact IH].
Qed.

Lemma probe_named_usable spec env source_name :
  probe_named w source_name (enabled_sources spec env) = Ok true <->
  usable w spec env source_name.
Proof.
  rewrite probe_named_existsb. unfold usable, enabled_sources. split.
  - intros H. injection H as H. apply existsb_exists in H as (s & Hin & Hs).
    apply filter_In in Hin as (Hin & Hen). apply andb_true_iff in Hs as (Hn & Hr).
    apply String.eqb_eq in Hn. exists s. repeat split; try assumption.
    rewrite test_source_connectivity_reachable. now rewrite Hr.
  - intros (s & Hin & Hn & Hen & Hr). f_equal. apply existsb_exists. exists s. split.
    + apply filter_In. now split.
    + rewrite test_source_connectivity_reachable in Hr. injection Hr as Hr.
      rewrite Hr, andb_true_r. now apply String.eqb_eq.
Qed.

Lemma probe_named_total source_name enabled :
  probe_named w source_name enabled = Ok true \/ probe_named w source_name enabled = Ok false.
Proof. rewrite probe_named_existsb. destruct (existsb _ _); auto. Qed.

Lemma first_available_some spec env primary_sources source_name :
  first_available w primary_sources (enabled_sources spec env) = Ok (Some source_name) <->
  exists before after,
    primary_sources = (before ++ source_name :: after)%list /\
    usable w spec env source_name /\
    forall m, In m before -> ~ usable w spec env m.
Proof.
  induction primary_sources as [|n rest IH]; simpl.
  - split; [discriminate|]. intros (before & after & H & _). now destruct before.
  - destruct (probe_named_total n (enabled_sources spec env)) as [Hp|Hp]; rewrite Hp; simpl.
    + apply probe_named_usable in Hp. split.
      * intros H. injection H as <-. exists [], rest. repeat split; [assumption|].
        intros m [].
      * intros (before & after & Heq & Hu & Hnot). destruct before as [|b before].
        -- simpl in Heq. injection Heq as -> _. reflexivity.
        -- simpl in Heq. injection Heq as -> _. exfalso. apply (Hnot b); [now left|assumption].
    + assert (Hn : ~ usable w spec env n).
      { intros Hu. apply probe_named_usable in Hu. congruence. }
      rewrite IH. split.
      * intros (before & after & -> & Hu & Hnot). exists (n :: before), after.
        repeat split; [assumption|]. intros m [<-|Hin]; [assumption | now apply Hnot].
      * intros (before & after & Heq & Hu & Hnot). destruct before as [|b before].
        -- simpl in Heq. injection Heq as <- _. contradiction.
        -- simpl in Heq. injection Heq as -> ->. exists before, after.
           repeat split; [assumption|]. intros m Hin. apply Hnot. now right.
Qed.

Lemma first_available_none spec env primary_sources :
  first_available w primary_sources (enabled_sources spec env) = Ok None <->
  forall m, In m primary_sources -> ~ usable w spec env m.
Proof.
  induction primary_sources as [|n rest IH]; simpl.
  - split; [intros _ m [] | reflexivity].
  - destruct (probe_named_total n (enabled_sources spec env)) as [Hp|Hp]; rewrite Hp; simpl.
    + apply probe_named_usable in Hp. split; [discriminate|].
      intros H. exfalso. apply (H n); [now left | assumption].
    + assert (Hn : ~ usable w spec env n).
      { intros Hu. apply probe_named_usable in Hu. congruence. }
      rewrite IH. split.
      * intros H m [<-|Hin]; [assumption | now apply H].
      * intros H m Hin. apply H. now right.
Qed.

Lemma first_available_total primary_sources enabled :
  exists r, first_available w primary_sources enabled = Ok r.
Proof.
  induction primary_sources as [|n rest IH]; simpl; [now exists None|].
  destruct (probe_named_total n enabled) as [Hp|Hp]; rewrite Hp; simpl;
    [now exists (Some n) | exact IH].
Qed.

End Selector.

(** C1: selection returns the first name of the priority list that has an
    enabled source passing the probe; if the list has no such name it
    raises an error that carries the names of the enabled sources and the
    priority list.  With two enabled sources [a] and [b] of different
    names and priority [a, b], it returns [b] when only [b] is reachable
    and [a] when both are. *)
Theorem select_source_first_usable (w : World) (spec : EtlOps.Spec) (env : string) :
  (forall source_name,
      EtlOps.select_source w spec env = Ok source_name <->
      exists before after,
        EtlOps.primary spec = (before ++ source_name :: after)%list /\
        usable w spec env source_name /\
        forall m, In m before -> ~ usable w spec env m) /\
  ((forall m, In m (EtlOps.primary spec) -> ~ usable w spec env m) <->
   EtlOps.select_source w spec env =
     Raised (NoAvailableSources
               (List.map EtlOps.name (EtlOps.enabled_sources spec env))
               (EtlOps.primary spec))) /\
  (forall a b,
      EtlOps.sources spec = [a; b] ->
      EtlOps.primary spec = [EtlOps.name a; EtlOps.name b] ->
      EtlOps.name a <> EtlOps.name b ->
      EtlOps.evaluate_condition (EtlOps.enabled_if a) env = true ->
      EtlOps.evaluate_condition (EtlOps.enabled_if b) env = true ->
      EtlOps.test_source_connectivity w b = Ok true ->
      (EtlOps.test_source_connectivity w a = Ok false ->
       EtlOps.select_source w spec env = Ok (EtlOps.name b)) /\
      (EtlOps.test_source_connectivity w a = Ok true ->
       EtlOps.select_source w spec env = Ok (EtlOps.name a))).
Proof.
  split; [|split].
  - intros source_name. rewrite <- first_available_some. unfold EtlOps.select_source.
    destruct (first_available_total w (EtlOps.primary spec) (EtlOps.enabled_sources spec env))
      as ([n|] & ->); simpl; split; congruence.
  - rewrite <- first_available_none. unfold EtlOps.select_source.
    destruct (first_available_total w (EtlOps.primary spec) (EtlOps.enabled_sources spec env))
      as ([n|] & ->); simpl; split; congruence.
  - intros a b Hs Hp Hne Ha Hb Hrb.
    assert (Hnb : String.eqb (EtlOps.name b) (EtlOps.name a) = false).
    { apply String.eqb_neq. congruence. }
    assert (Hna : String.eqb (EtlOps.name a) (EtlOps.name b) = false).
    { now apply String.eqb_neq. }
    unfold EtlOps.select_source, EtlOps.enabled_sources. rewrite Hs, Hp. simpl.
    rewrite Ha, Hb. simpl. rewrite !String.eqb_refl, Hnb, Hna. simpl.
    split; intros Hra; rewrite Hra; simpl; [|reflexivity].
    rewrite Hrb. reflexivity.
Qed.

Lemma select_source_first_usable_witness :
  EtlOps.select_source demo_world (demo_spec demo_missing demo_present) "dev" = Ok "b" /\
  EtlOps.select_source demo_world (demo_spec demo_present_too demo_present) "dev" = Ok "a" /\
  (exists before after,
      ["a"; "b"] = (before ++ "b" :: after)%list /\
      usable demo_world (demo_spec demo_missing demo_present) "dev" "b" /\
      forall m, In m before -> ~ usable demo_world (demo_spec demo_missing demo_present) "dev" m).
Proof.
  split; [|split].
  - apply (proj2 (proj2 (select_source_first_usable demo_world
                           (demo_spec demo_missing demo_present) "dev"))
             demo_missing demo_present);
      [reflexivity | reflexivity | discriminate | reflexivity | reflexivity
      | reflexivity | reflexivity].
  - apply (proj2 (proj2 (select_source_first_usable demo_world
                           (demo_spec demo_present_too demo_present) "dev"))
             demo_present_too demo_present);
      [reflexivity | reflexivity | discriminate | reflexivity | reflexivity
      | reflexivity | reflexivity].
  - apply (proj1 (select_source_first_usable demo_world
                    (demo_spec demo_missing demo_present) "dev") "b").
    reflexivity.
Defined.

(** ** Condition evaluator *)

Section Strings.
Import PyStr.

Lemma append_nil_r (s : string) : s ++ EmptyString = s.
Proof. induction s; simpl; congruence. Qed.

Lemma append_assoc (a b c : string) : (a ++ b) ++ c = a ++ (b ++ c).
Proof. induction a; simpl; congruence. Qed.

Lemma append_one_cons (a : string) (c : ascii) (b : string) :
  (a ++ String c EmptyString) ++ b = a ++ String c b.
Proof. now rewrite append_assoc. Qed.

Lemma append_one_inv (s : string) (c : ascii) :
  exists a r, s ++ String c EmptyString = String a r.
Proof. destruct s; simpl; eauto. Qed.

(** A text without the separator is one piece. *)
Lemma split_go_no_sep (sep cur s : string) :
  contains sep s = false -> split_go sep 0 cur s = [cur ++ s].
Proof.
  revert cur. induction s as [|c s IH]; intros cur H.
  - simpl. now rewrite append_nil_r.
  - simpl in H. apply orb_false_iff in H as (Hs & Hc).
    cbn [split_go]. rewrite Hs, (IH _ Hc). now rewrite append_one_cons.
Qed.

Lemma startswith_one (a c : ascii) (s : string) :
  startswith (String a EmptyString) (String c s) = Ascii.eqb a c.
Proof. simpl. now destruct (Ascii.eqb a c). Qed.

(** Appending a character other than the second of a two-character
    separator creates no occurrence of it. *)
Lemma contains_two_app_one (a b q : ascii) (v : string) :
  Ascii.eqb b q = false ->
  contains (String a (String b EmptyString)) v = false ->
  contains (String a (String b EmptyString)) (v ++ String q EmptyString) = false.
Proof.
  intros Hq. induction v as [|c v IH]; intros H.
  - simpl. now destruct (Ascii.eqb a q).
  - simpl in H. apply orb_false_iff in H as (Hs & Hc).
    simpl. rewrite (IH Hc), orb_false_r.
    destruct v as [|c' v]; simpl in *.
    + rewrite Hq. now destruct (Ascii.eqb a c).
    + exact Hs.
Qed.

Lemma rstrip_app_keep (p : ascii -> bool) (s : string) (c : ascii) :
  p c = false -> rstrip p (s ++ String c EmptyString) = s ++ String c EmptyString.
Proof.
  intros Hc. induction s as [|a s IH]; simpl.
  - now rewrite Hc.
  - rewrite IH. now destruct (append_one_inv s c) as (x & r & ->).
Qed.

Lemma rstrip_app_drop (p : ascii -> bool) (s : string) (c : ascii) :
  p c = true -> rstrip p (s ++ String c EmptyString) = rstrip p s.
Proof.
  intros Hc. induction s as [|a s IH]; simpl.
  - now rewrite Hc.
  - now rewrite IH.
Qed.

Lemma strip_app_drop (p : ascii -> bool) (s : string) (c : ascii) :
  p c = true -> strip p (s ++ String c EmptyString) = strip p s.
Proof.
  intros Hc. unfold strip. induction s as [|a s IH]; simpl.
  - now rewrite Hc.
  - destruct (p a) eqn:Ha; [exact IH|].
    change (String a (s ++ String c EmptyString)) with (String a s ++ String c EmptyString).
    now apply rstrip_app_drop.
Qed.

Lemma rstrip_fixed (p : ascii -> bool) (s : string) :
  (forall q, p q = true -> endswith (String q EmptyString) s = false) ->
  rstrip p s = s.
Proof.
  induction s as [|a s IH]; intros H; [reflexivity|].
  simpl. rewrite IH.
  - destruct s; [|reflexivity].
    destruct (p a) eqn:Ha; [|reflexivity].
    specialize (H a Ha). simpl in H. now rewrite Ascii.eqb_refl in H.
  - intros q Hq. specialize (H q Hq). cbn [endswith] in H.
    now apply orb_false_iff in H as (_ & H).
Qed.

Lemma strip_fixed (p : ascii -> bool) (s : string) :
  (forall q, p q = true ->
             startswith (String q EmptyString) s = false /\
             endswith (String q EmptyString) s = false) ->
  strip p s = s.
Proof.
  intros H. unfold strip.
  assert (Hl : lstrip p s = s).
  { destruct s as [|a s]; [reflexivity|]. simpl.
    destruct (p a) eqn:Ha; [|reflexivity].
    destruct (H a Ha) as (Hs & _). rewrite startswith_one, Ascii.eqb_refl in Hs.
    discriminate. }
  rewrite Hl. apply rstrip_fixed. intros q Hq. now apply H.
Qed.

End Strings.

Lemma is_quote_cases (q : ascii) :
  is_quote q = true -> q = PyStr.squote \/ q = PyStr.dquote.
Proof.
  unfold is_quote. simpl. rewrite orb_false_r. intros H.
  apply orb_true_iff in H as [H|H]; apply Ascii.eqb_eq in H; auto.
Qed.

(** The target of a well-formed equality test is its value. *)
Lemma target_env_equality_test (q : ascii) (value : string) :
  is_quote q = true -> plain_value value ->
  EtlOps.target_env (equality_test q value) = value.
Proof.
  intros Hq (Hsep & Hedge).
  assert (Hpiece : PyStr.split "==" (equality_test q value)
                   = ["env "; " " ++ String q (value ++ String q EmptyString)]).
  { unfold PyStr.split, equality_test.
    destruct (is_quote_cases q Hq) as [-> | ->]; simpl;
      (rewrite split_go_no_sep; [reflexivity|]);
      apply contains_two_app_one; auto. }
  unfold EtlOps.target_env. rewrite Hpiece.
  assert (Hws : PyStr.strip PyStr.isspace (" " ++ String q (value ++ String q EmptyString))
                = String q (value ++ String q EmptyString)).
  { unfold PyStr.strip.
    destruct (is_quote_cases q Hq) as [-> | ->]; simpl PyStr.lstrip.
    - apply (rstrip_app_keep PyStr.isspace (String PyStr.squote value) PyStr.squote).
      reflexivity.
    - apply (rstrip_app_keep PyStr.isspace (String PyStr.dquote value) PyStr.dquote).
      reflexivity. }
  rewrite Hws. fold is_quote.
  change (String q (value ++ String q EmptyString))
    with (String q value ++ String q EmptyString).
  rewrite (strip_app_drop _ _ _ Hq). unfold PyStr.strip. simpl PyStr.lstrip.
  rewrite Hq. now apply strip_fixed.
Qed.

(** C2 (as the code has it): the two literals evaluate to themselves; an
    equality test in single or double quotes whose value has no [==]
    inside and no quote character at an end is true exactly when the
    environment equals the value; every other condition that contains
    [env ==] is compared with what follows its first [==], stripped of
    white space and quotes; and every condition without [env ==] other
    than the literals evaluates to false with one warning printed. *)
Theorem evaluate_condition_grammar (env : string) :
  EtlOps.evaluate_condition "true" env = true /\
  EtlOps.evaluate_condition "false" env = false /\
  (forall q value,
      is_quote q = true -> plain_value value ->
      (EtlOps.evaluate_condition (equality_test q value) env = true <-> env = value)) /\
  (forall condition,
      condition <> "true" -> condition <> "false" ->
      PyStr.contains "env ==" condition = true ->
      EtlOps.evaluate_condition condition env = String.eqb env (EtlOps.target_env condition)) /\
  (forall condition,
      condition <> "true" ->
      PyStr.contains "env ==" condition = false ->
      EtlOps.evaluate_condition condition env = false /\
      (condition <> "false" ->
       EtlOps.evaluate_condition_io condition env
         = (false, [EtlOps.unknown_condition_warning condition]))).
Proof.
  split; [reflexivity|]. split; [reflexivity|]. split; [|split].
  - intros q value Hq Hv.
    assert (Heval : EtlOps.evaluate_condition (equality_test q value) env
                    = String.eqb env (EtlOps.target_env (equality_test q value))).
    { unfold EtlOps.evaluate_condition, EtlOps.evaluate_condition_io, equality_test.
      reflexivity. }
    rewrite Heval, target_env_equality_test by assumption.
    apply String.eqb_eq.
  - intros condition Ht Hf Hc.
    unfold EtlOps.evaluate_condition, EtlOps.evaluate_condition_io.
    apply String.eqb_neq in Ht, Hf. now rewrite Ht, Hf, Hc.
  - intros condition Ht Hc.
    unfold EtlOps.evaluate_condition, EtlOps.evaluate_condition_io.
    apply String.eqb_neq in Ht. rewrite Ht, Hc. split.
    + now destruct (String.eqb condition "false").
    + intros Hf. apply String.eqb_neq in Hf. now rewrite Hf.
Qed.

Lemma evaluate_condition_grammar_witness :
  (EtlOps.evaluate_condition (equality_test PyStr.squote "dev") "dev" = true <-> "dev" = "dev") /\
  (EtlOps.evaluate_condition (equality_test PyStr.dquote "prod") "dev" = true <-> "dev" = "prod") /\
  EtlOps.evaluate_condition "env == dev" "dev" = String.eqb "dev" (EtlOps.target_env "env == dev") /\
  EtlOps.evaluate_condition_io "env in ['dev']" "dev"
    = (false, [EtlOps.unknown_condition_warning "env in ['dev']"]).
Proof.
  split; [|split; [|split]].
  - apply (proj1 (proj2 (proj2 (evaluate_condition_grammar "dev"))) PyStr.squote "dev");
      [reflexivity|].
    split; [reflexivity|]. intros q Hq.
    destruct (is_quote_cases q Hq) as [-> | ->]; split; reflexivity.
  - apply (proj1 (proj2 (proj2 (evaluate_condition_grammar "dev"))) PyStr.dquote "prod");
      [reflexivity|].
    split; [reflexivity|]. intros q Hq.
    destruct (is_quote_cases q Hq) as [-> | ->]; split; reflexivity.
  - apply (proj1 (proj2 (proj2 (proj2 (evaluate_condition_grammar "dev")))) "env == dev");
      [discriminate | discriminate | reflexivity].
  - apply (proj2 (proj2 (proj2 (proj2 (evaluate_condition_grammar "dev")))) "env in ['dev']");
      [discriminate | reflexivity | discriminate].
Defined.

(** C2 (as stated) fails: an equality test without quotes is outside the
    grammar and still evaluates to true, and a quoted value that contains
    [==] is cut at it. *)
Lemma evaluate_condition_outside_grammar :
  (~ in_grammar "env == dev" /\ EtlOps.evaluate_condition "env == dev" "dev" = true) /\
  (EtlOps.evaluate_condition (equality_test PyStr.squote "a==b") "a" = true /\ "a" <> "a==b").
Proof.
  split; split.
  - intros [H | [H | (q & value & Hq & H)]]; try discriminate.
    unfold equality_test in H. simpl in H. injection H as H _.
    subst q. discriminate.
  - reflexivity.
  - reflexivity.
  - discriminate.
Qed.

(** ** REST pagination *)

Section Fetch.
Import IoSources.
Variables (w : World) (url : string).
Variables (pagination : option Pagination) (since : option Since).




End Fetch.




(** ** Specification model *)

Section Schema.
Import SpecSchema.

Lemma sources_field_accepts (v : option (list RawSource)) :
  (exists l, sources_field v = inr l) <->
  exists raws, v = Some raws /\ raws <> [] /\
               Forall (fun r => is_Some (validate_source r)) raws.
Proof.
  unfold sources_field. split.
  - intros (l & H). destruct v as [raws|]; [|discriminate].
    destruct (mapM validate_source raws) as [l'|] eqn:Hm; [|discriminate].
    exists raws. split; [reflexivity|]. split.
    + intros ->. simpl in Hm. injection Hm as <-. discriminate.
    + apply (mapM_is_Some_1 validate_source). now rewrite Hm.
  - intros (raws & -> & Hne & Hall).
    destruct (mapM_is_Some_2 validate_source raws Hall) as (l & Hm). rewrite Hm.
    destruct l as [|s l].
    + apply mapM_Some_1 in Hm. inversion Hm; subst. contradiction.
    + simpl. eauto.
Qed.

(** The errors of rejected elements are located under the source list. *)
Lemma element_errors_location (raws : list RawSource) (entry : string * string) :
  In entry (concat (imap element_errors raws)) ->
  exists i r rest,
    raws !! i = Some r /\ validate_source r = None /\
    fst entry = "sources" ++ arrow ++ pretty i ++ arrow ++ rest.
Proof.
  intros Hin. apply in_concat in Hin as (errors & Herrors & Hin).
  apply list_elem_of_In, elem_of_lookup_imap in Herrors as (i & r & -> & Hr).
  exists i, r. unfold element_errors in Hin |- *.
  destruct (validate_source r); [contradiction|].
  apply in_map_iff in Hin as (inner & <- & _). now exists (fst inner).
Qed.

Lemma sources_field_errors (raws : list RawSource) (e : Errors) :
  raws <> [] -> sources_field (Some raws) = inl e -> ~ In no_sources_error e.
Proof.
  intros Hne. unfold sources_field.
  destruct (mapM validate_source raws) as [l|] eqn:Hm.
  - destruct l as [|s l].
    + apply mapM_Some_1 in Hm. inversion Hm; subst. contradiction.
    + discriminate.
  - intros H. injection H as <-. intros Hin.
    apply element_errors_location in Hin as (i & r & rest & _ & _ & Hloc).
    discriminate Hloc.
Qed.

Lemma required_errors {A : Type} (field : string) (v : option A) (entry : string * string) :
  In entry (errors_of (required field v)) -> fst entry = field /\ v = None.
Proof. destruct v; simpl; [intros [] | intros [<-|[]]; auto]. Qed.

Lemma sources_field_errors_field (v : option (list RawSource)) (entry : string * string) :
  In entry (errors_of (sources_field v)) -> PyStr.startswith "sources" (fst entry) = true.
Proof.
  unfold sources_field. destruct v as [raws|]; simpl; [|intros [<-|[]]; reflexivity].
  destruct (mapM validate_source raws) as [[|s l]|]; simpl.
  - intros [<-|[]]. reflexivity.
  - intros [].
  - intros Hin. apply element_errors_location in Hin as (i & r & rest & _ & _ & ->).
    reflexivity.
Qed.

Lemma construct_errors (raw : RawSpec) (e : Errors) :
  construct raw = inl e ->
  e = (errors_of (required "pipeline_name" (raw_pipeline_name raw)) ++
       errors_of (required "schedule" (raw_schedule raw)) ++
       errors_of (sources_field (raw_sources raw)) ++
       errors_of (required "source_routing" (raw_source_routing raw)) ++
       errors_of (required "transform" (raw_transform raw)) ++
       errors_of (required "outputs" (raw_outputs raw)) ++
       errors_of (required "checks" (raw_checks raw)))%list.
Proof.
  unfold construct.
  destruct (required "pipeline_name" _), (required "schedule" _), (sources_field _),
    (required "source_routing" _), (required "transform" _), (required "outputs" _),
    (required "checks" _); intros H; try discriminate; now injection H as <-.
Qed.

End Schema.

(** C4 (as the code has it): construction fails with the error of the
    sources validator whenever the source list is empty; it succeeds
    exactly when every required key is present, every source is accepted
    by a variant and there is at least one source, whatever the pipeline
    name is; and for a present name and a non-empty source list no error
    is reported on the name or by the sources validator. *)
Theorem construct_requires_sources (raw : SpecSchema.RawSpec) :
  (SpecSchema.raw_sources raw = Some [] ->
   exists errors, SpecSchema.construct raw = inl errors /\ In no_sources_error errors) /\
  ((exists spec, SpecSchema.construct raw = inr spec) <-> accepted raw) /\
  (forall pipeline_name raws errors,
      SpecSchema.raw_pipeline_name raw = Some pipeline_name ->
      SpecSchema.raw_sources raw = Some raws -> raws <> [] ->
      SpecSchema.construct raw = inl errors ->
      ~ In no_sources_error errors /\
      forall msg, ~ In ("pipeline_name", msg) errors).
Proof.
  split; [|split].
  - intros Hs.
    destruct (SpecSchema.construct raw) as [errors|spec] eqn:Hc.
    + exists errors. split; [reflexivity|].
      rewrite (construct_errors raw errors Hc), Hs. simpl.
      apply in_or_app. right. apply in_or_app. right. now left.
    + exfalso. unfold SpecSchema.construct in Hc. rewrite Hs in Hc. simpl in Hc.
      destruct (SpecSchema.required "pipeline_name" _), (SpecSchema.required "schedule" _);
        discriminate.
  - unfold accepted. rewrite <- sources_field_accepts. unfold SpecSchema.construct.
    destruct (SpecSchema.raw_pipeline_name raw), (SpecSchema.raw_schedule raw),
      (SpecSchema.sources_field (SpecSchema.raw_sources raw)),
      (SpecSchema.raw_source_routing raw), (SpecSchema.raw_transform raw),
      (SpecSchema.raw_outputs raw), (SpecSchema.raw_checks raw); simpl;
      split;
      try (intros (spec & H); discriminate);
      try (intros (H1 & H2 & H3 & H4 & H5 & H6 & H7);
           repeat match goal with
                  | H : is_Some None |- _ => destruct H as (? & H); discriminate H
                  | H : exists _, inl _ = inr _ |- _ => destruct H as (? & H); discriminate H
                  end);
      try (intros _; repeat split; eauto);
      eauto.
  - intros pipeline_name raws errors Hn Hs Hne Hc.
    rewrite (construct_errors raw errors Hc), Hn, Hs. split.
    + intros Hin. repeat (apply in_app_or in Hin as [Hin|Hin]);
        try (apply required_errors in Hin as (Hf & Hv);
             first [discriminate Hv | discriminate Hf]).
      destruct (SpecSchema.sources_field (Some raws)) as [e|l] eqn:Hf; [|contradiction].
      now apply (sources_field_errors raws e Hne Hf).
    + intros msg Hin. repeat (apply in_app_or in Hin as [Hin|Hin]);
        try (apply required_errors in Hin as (Hf & Hv);
             first [discriminate Hv | discriminate Hf]).
      apply sources_field_errors_field in Hin. discriminate.
Qed.

Lemma construct_requires_sources_witness :
  (exists errors, SpecSchema.construct (smoke_spec "smoke_test" []) = inl errors /\
                  In no_sources_error errors) /\
  (exists spec, SpecSchema.construct (smoke_spec "smoke_test" [smoke_source]) = inr spec).
Proof.
  split.
  - apply (proj1 (construct_requires_sources (smoke_spec "smoke_test" []))). reflexivity.
  - apply (proj1 (proj2 (construct_requires_sources (smoke_spec "smoke_test" [smoke_source])))).
    unfold accepted. simpl. repeat split; eauto.
Defined.

(** C4 (as stated) fails: a specification with an empty pipeline name and
    one source is constructed without any error. *)
Lemma construct_accepts_empty_name :
  SpecSchema.raw_pipeline_name (smoke_spec EmptyString [smoke_source]) = Some EmptyString /\
  exists spec, SpecSchema.construct (smoke_spec EmptyString [smoke_source]) = inr spec /\
               SpecSchema.pipeline_name spec = EmptyString.
Proof. split; [reflexivity|]. eexists. split; reflexivity. Qed.

(** ** Quality gate *)



Section NullRatio.
Import Checks.





End NullRatio.



(** ** Transform substitution *)

Section Substitution.
Import PyStr.

Lemma startswith_app (p rest : string) : startswith p (p ++ rest) = true.
Proof. induction p as [|a p IH]; simpl; [reflexivity|]. now rewrite Ascii.eqb_refl. Qed.

Lemma length_append (a b : string) :
  String.length (a ++ b) = String.length a + String.length b.
Proof. induction a; simpl; congruence. Qed.

(** The characters of a matched occurrence are passed over. *)
Lemma replace_go_skip (old new a rest : string) :
  replace_go old new (String.length a) (a ++ rest) = replace_go old new 0 rest.
Proof. induction a as [|c a IH]; simpl; [now destruct rest | exact IH]. Qed.

Lemma replace_go_match (old new rest : string) :
  old <> EmptyString ->
  replace_go old new 0 (old ++ rest) = new ++ replace_go old new 0 rest.
Proof.
  intros Hne. destruct old as [|c old]; [contradiction|].
  change (String c old ++ rest) with (String c (old ++ rest)).
  cbn [replace_go].
  change (String c (old ++ rest)) with (String c old ++ rest).
  rewrite startswith_app. simpl String.length.
  replace (S (String.length old) - 1) with (String.length old) by lia.
  now rewrite replace_go_skip.
Qed.

(** Text without the first character of [old] is copied. *)
Lemma replace_go_text (c : ascii) (old new s rest : string) :
  mem c s = false ->
  replace_go (String c old) new 0 (s ++ rest) = s ++ replace_go (String c old) new 0 rest.
Proof.
  induction s as [|a s IH]; intros Hs; [reflexivity|].
  cbn [mem] in Hs. apply orb_false_iff in Hs as (Hca & Hs).
  change (String a s ++ rest) with (String a (s ++ rest)).
  cbn [replace_go startswith]. rewrite Hca. rewrite (IH Hs). reflexivity.
Qed.

Lemma mem_app (c : ascii) (a b : string) : mem c (a ++ b) = mem c a || mem c b.
Proof.
  induction a as [|x a IH]; [reflexivity|].
  cbn [String.append mem]. now rewrite IH, orb_assoc.
Qed.

(** A key and its closing brace are a prefix only of the same key. *)
Lemma startswith_key (k k' rest : string) :
  mem "}"%char k = false -> mem "}"%char k' = false ->
  startswith (k ++ "}") (k' ++ "}" ++ rest) = true -> k = k'.
Proof.
  revert k'. induction k as [|a k IH]; intros k' Hk Hk' H.
  - destruct k' as [|b k']; [reflexivity|].
    cbn [mem] in Hk'. cbn [String.append startswith] in H.
    apply orb_false_iff in Hk' as (Hb & _).
    rewrite Hb in H. discriminate.
  - cbn [mem] in Hk. apply orb_false_iff in Hk as (Ha & Hk).
    destruct k' as [|b k'].
    + cbn [String.append startswith] in H. rewrite Ascii.eqb_sym, Ha in H. discriminate.
    + cbn [mem] in Hk'. apply orb_false_iff in Hk' as (_ & Hk').
      cbn [String.append startswith] in H. destruct (Ascii.eqb a b) eqn:Hab; [|discriminate].
      apply Ascii.eqb_eq in Hab as ->. f_equal. now apply IH.
Qed.

End Substitution.

Section Templates.
Import PyStr EtlOps.

Lemma placeholder_unfold (key : string) :
  placeholder key = String "$" (String "{" (key ++ "}")).
Proof. reflexivity. Qed.

(** One replacement fills the holes of its key and nothing else. *)
Lemma replace_render (key value : string) (segs : list Segment) :
  plain_key key -> plain_template segs ->
  replace (placeholder key) value (render segs) = render (fill [(key, value)] segs).
Proof.
  intros (Hk1 & Hk2) Hsegs. unfold replace.
  induction Hsegs as [|seg segs Hseg Hsegs IH]; [reflexivity|].
  cbn [render fill List.map]. fold (fill [(key, value)] segs). rewrite <- IH.
  destruct seg as [s | key']; cbn [render_segment fill_segment lookup_param].
  - rewrite placeholder_unfold. now apply replace_go_text.
  - destruct Hseg as (Hk1' & Hk2').
    destruct (String.eqb key key') eqn:Heq.
    + apply String.eqb_eq in Heq as <-. cbn [render_segment].
      apply replace_go_match. discriminate.
    + cbn [render_segment].
      rewrite (placeholder_unfold key').
      change (String "$" (String "{" (key' ++ "}")) ++ render segs)
        with (String "$" (String "{" (key' ++ "}") ++ render segs)).
      cbn [replace_go].
      replace (startswith (placeholder key)
                 (String "$" (String "{" (key' ++ "}") ++ render segs))) with false.
      * transitivity (String "$" (String "{" (key' ++ "}") ++
                        replace_go (placeholder key) value 0 (render segs)));
          [|reflexivity].
        f_equal. rewrite placeholder_unfold. apply replace_go_text.
        cbn [mem]. rewrite mem_app, Hk1'. reflexivity.
      * symmetry. apply not_true_is_false. intros Hs.
        rewrite placeholder_unfold in Hs. simpl in Hs.
        rewrite append_assoc in Hs.
        apply startswith_key in Hs; try assumption.
        subst. rewrite String.eqb_refl in Heq. discriminate.
Qed.

Lemma fill_plain (key value : string) (segs : list Segment) :
  plain_text value -> plain_template segs -> plain_template (fill [(key, value)] segs).
Proof.
  intros Hv Hsegs. induction Hsegs as [|seg segs Hseg Hsegs IH]; constructor; [|exact IH].
  destruct seg as [s | key']; simpl; [assumption|].
  destruct (String.eqb key key'); assumption.
Qed.

Lemma fill_cons (key value : string) (params : list (string * string)) (segs : list Segment) :
  fill params (fill [(key, value)] segs) = fill ((key, value) :: params) segs.
Proof.
  unfold fill. rewrite List.map_map. apply List.map_ext. intros [s | key']; simpl; [reflexivity|].
  destruct (String.eqb key key'); reflexivity.
Qed.

Lemma substitute_render (params : list (string * string)) :
  forall segs,
    plain_params params -> plain_template segs ->
    substitute params (render segs) = render (fill params segs).
Proof.
  induction params as [|[key value] params IH]; intros segs Hp Hsegs.
  - simpl. unfold fill. f_equal. symmetry. rewrite <- (List.map_id segs) at 2.
    apply List.map_ext. now intros [s | key'].
  - inversion Hp as [|? ? (Hk & Hv) Hp']; subst. simpl in Hk, Hv.
    cbn [substitute]. rewrite replace_render by assumption.
    rewrite IH by (auto using fill_plain). apply f_equal, fill_cons.
Qed.

End Templates.

(** C7 (as the code has it): for a template of dollar-free text and
    placeholders and a mapping of plain keys to dollar-free values, the
    substitution loop replaces every placeholder of a mapped key by the
    mapped value, as raw text, and leaves the rest as it is; [run_sql]
    first binds the view [source_data] to the extracted file and, if the
    engine accepts that, runs the substituted query against it: it returns
    the output path when the engine accepts the query too, and leaves by
    the engine's exception otherwise. *)
Theorem substitute_fills_placeholders (params : list (string * string))
    (segs : list Segment) :
  plain_params params -> plain_template segs ->
  EtlOps.substitute params (render segs) = render (fill params segs) /\
  forall w read_text conn data_path sql_path,
    read_text sql_path = Ok (render segs) ->
    exists output_path,
      EtlOps.run_sql w read_text conn data_path sql_path params =
        match conn [] (view_statement data_path) with
        | Raised e => ([view_statement data_path], Raised e)
        | Ok _ =>
            ([view_statement data_path;
              copy_statement (render (fill params segs)) output_path],
             match conn [view_statement data_path]
                        (copy_statement (render (fill params segs)) output_path) with
             | Ok _ => Ok output_path
             | Raised e => Raised e
             end)
        end.
Proof.
  intros Hp Hsegs. split; [now apply substitute_render|].
  intros w read_text conn data_path sql_path Hread.
  unfold EtlOps.run_sql. rewrite Hread.
  rewrite substitute_render by assumption.
  exists ("/tmp/etl_pipeline/transformed_" ++ hash_str w sql_path ++ ".parquet").
  unfold view_statement, copy_statement. cbv zeta.
  destruct (conn [] _); [|reflexivity]. now destruct (conn [_] _).
Qed.

Lemma substitute_fills_placeholders_witness :
  EtlOps.substitute [("dedupe_key", "id"); ("latest_col", "updated_at")]
    "SELECT * FROM source_data QUALIFY ROW_NUMBER() OVER (PARTITION BY ${dedupe_key} ORDER BY ${latest_col} DESC) = 1"
  = "SELECT * FROM source_data QUALIFY ROW_NUMBER() OVER (PARTITION BY id ORDER BY updated_at DESC) = 1" /\
  (exists output_path,
     EtlOps.run_sql demo_world (fun _ => Ok "SELECT ${cols} FROM source_data")
       accepting_connection "/tmp/etl_pipeline/extracted_0.parquet" "orders.sql" [("cols", "id")]
     = ([view_statement "/tmp/etl_pipeline/extracted_0.parquet";
         copy_statement "SELECT id FROM source_data" output_path], Ok output_path)) /\
  EtlOps.run_sql demo_world (fun _ => Ok "SELECT ${cols} FROM source_data")
    no_data_connection "/tmp/etl_pipeline/missing.parquet" "orders.sql" [("cols", "id")]
  = ([view_statement "/tmp/etl_pipeline/missing.parquet"],
     Raised (LibraryError "IO Error: No files found")).
Proof.
  split; [|split].
  - apply (proj1 (substitute_fills_placeholders
                    [("dedupe_key", "id"); ("latest_col", "updated_at")]
                    [Text "SELECT * FROM source_data QUALIFY ROW_NUMBER() OVER (PARTITION BY ";
                     Hole "dedupe_key"; Text " ORDER BY "; Hole "latest_col";
                     Text " DESC) = 1"]
                    ltac:(repeat constructor) ltac:(repeat constructor))).
  - destruct (proj2 (substitute_fills_placeholders [("cols", "id")]
                       [Text "SELECT "; Hole "cols"; Text " FROM source_data"]
                       ltac:(repeat constructor) ltac:(repeat constructor))
                demo_world (fun _ => Ok "SELECT ${cols} FROM source_data")
                accepting_connection "/tmp/etl_pipeline/extracted_0.parquet" "orders.sql"
                eq_refl) as (output_path & Hrun).
    exists output_path. exact Hrun.
  - destruct (proj2 (substitute_fills_placeholders [("cols", "id")]
                       [Text "SELECT "; Hole "cols"; Text " FROM source_data"]
                       ltac:(repeat constructor) ltac:(repeat constructor))
                demo_world (fun _ => Ok "SELECT ${cols} FROM source_data")
                no_data_connection "/tmp/etl_pipeline/missing.parquet" "orders.sql"
                eq_refl) as (output_path & Hrun).
    exact Hrun.
Defined.

(** C7 (as stated) fails: a value that holds the placeholder of a later
    key is not kept as raw text, the later replacement rewrites it. *)
Lemma substitute_rescans_values :
  EtlOps.substitute [("a", "${b}"); ("b", "x")] (render [Hole "a"]) = "x" /\
  render (fill [("a", "${b}"); ("b", "x")] [Hole "a"]) = "${b}".
Proof. split; reflexivity. Qed.

(** ** JSON text of output paths *)

Section JsonText.
Import PyJson.








End JsonText.

Example loads_dumps_paths :
  PyJson.loads (PyJson.dumps ["data/out.db#orders"; "data/parquet"])
    = Ok ["data/out.db#orders"; "data/parquet"].
Proof. reflexivity. Qed.

(** ** Run catalog *)

Section RunCatalog.
Import Catalog.

#[global] Instance ts_le_total : Total ts_le.
Proof. intros [x|] [y|]; simpl; auto. lia. Qed.

#[global] Instance ts_le_trans : Transitive ts_le.
Proof. intros [x|] [y|] [z|]; simpl; auto; try lia; contradiction. Qed.

#[global] Instance started_no_earlier_total : Total started_no_earlier.
Proof. intros r1 r2. unfold started_no_earlier. apply ts_le_total. Qed.

#[global] Instance started_no_earlier_trans : Transitive started_no_earlier.
Proof.
  intros r1 r2 r3. unfold started_no_earlier. intros H12 H23.
  now apply (ts_le_trans _ (started_at r2)).
Qed.










End RunCatalog.



(** * Further properties of the code *)

(** ** Run catalog: identifiers, limits and the return of [record_run] *)

Section CatalogHistory.
Import Catalog.







End CatalogHistory.





(** ** Source selector: names without a source *)

Section SelectorNames.
Import EtlOps.
Variable w : World.

Lemma probe_named_unknown (spec : Spec) (env source_name : string) :
  known spec source_name = false ->
  probe_named w source_name (enabled_sources spec env) = Ok false.
Proof.
  intros Hk. rewrite probe_named_existsb. f_equal.
  apply not_true_is_false. intros H. apply existsb_exists in H as (s & Hin & Hs).
  apply andb_true_iff in Hs as (Hn & _). apply filter_In in Hin as (Hin & _).
  assert (known spec source_name = true); [|congruence].
  apply existsb_exists. now exists s.
Qed.

Lemma first_available_without_unknown (spec : Spec) (env : string)
    (primary_sources : list string) :
  first_available w (List.filter (known spec) primary_sources) (enabled_sources spec env)
  = first_available w primary_sources (enabled_sources spec env).
Proof.
  induction primary_sources as [|n rest IH]; [reflexivity|].
  cbn [List.filter first_available]. destruct (known spec n) eqn:Hk.
  - cbn [first_available]. destruct (probe_named w n _) as [[]|]; simpl; auto.
  - rewrite (probe_named_unknown spec env n Hk). simpl. exact IH.
Qed.

End SelectorNames.

(** X4: a name of the priority list that no source carries is passed
    over without an error: taking such names out of the list does not
    change which source is selected; and a selected name is always on the
    priority list and carried by an enabled, reachable source. *)
Theorem select_source_skips_unknown_names (w : World) (spec : EtlOps.Spec)
    (env source_name : string) :
  (EtlOps.select_source w spec env = Ok source_name <->
   EtlOps.select_source w (without_unknown spec) env = Ok source_name) /\
  (EtlOps.select_source w spec env = Ok source_name ->
   In source_name (EtlOps.primary spec) /\ usable w spec env source_name).
Proof.
  split.
  - unfold EtlOps.select_source.
    change (EtlOps.enabled_sources (without_unknown spec) env)
      with (EtlOps.enabled_sources spec env).
    cbn [without_unknown EtlOps.primary].
    rewrite first_available_without_unknown.
    destruct (first_available_total w (EtlOps.primary spec) (EtlOps.enabled_sources spec env))
      as ([n|] & ->); simpl; split; congruence.
  - unfold EtlOps.select_source.
    destruct (EtlOps.first_available w (EtlOps.primary spec) (EtlOps.enabled_sources spec env))
      as [[n|]|e] eqn:Hf; simpl; try discriminate.
    intros H. injection H as ->.
    apply first_available_some in Hf as (before & after & Heq & Hu & _).
    split; [|exact Hu]. rewrite Heq. apply in_or_app. right. now left.
Qed.

Lemma select_source_skips_unknown_names_witness :
  In "b" ["ghost"; "b"] /\
  EtlOps.select_source demo_world
    (without_unknown {| EtlOps.sources := [demo_present]; EtlOps.primary := ["ghost"; "b"] |})
    "dev" = Ok "b".
Proof.
  split.
  - apply (proj2 (select_source_skips_unknown_names demo_world
                    {| EtlOps.sources := [demo_present]; EtlOps.primary := ["ghost"; "b"] |}
                    "dev" "b")).
    reflexivity.
  - apply (proj1 (select_source_skips_unknown_names demo_world
                    {| EtlOps.sources := [demo_present]; EtlOps.primary := ["ghost"; "b"] |}
                    "dev" "b")).
    reflexivity.
Defined.

(** ** Connectivity probe: slashes at the junction of base URL and path *)

Lemma lstrip_cons_drop (p : ascii -> bool) (c : ascii) (s : string) :
  p c = true -> PyStr.lstrip p (String c s) = PyStr.lstrip p s.
Proof. intros Hc. simpl. now rewrite Hc. Qed.

(** X5: the probe of a REST source does not depend on a slash at the
    end of the base URL or at the start of the path: the HEAD request goes
    to the same URL with or without them. *)
Theorem probe_ignores_junction_slashes (w : World) (n cond base rel : string) :
  EtlOps.test_source_connectivity w (rest_source n cond (base ++ "/") ("/" ++ rel))
  = EtlOps.test_source_connectivity w (rest_source n cond base rel) /\
  EtlOps.test_source_connectivity w (rest_source n cond (base ++ "/") rel)
  = EtlOps.test_source_connectivity w (rest_source n cond base rel) /\
  EtlOps.test_source_connectivity w (rest_source n cond base ("/" ++ rel))
  = EtlOps.test_source_connectivity w (rest_source n cond base rel).
Proof.
  unfold EtlOps.test_source_connectivity, EtlOps.probe, rest_source.
  cbn [EtlOps.type EtlOps.base_url EtlOps.path getitem bind String.eqb Ascii.eqb Bool.eqb].
  change ("/" ++ rel) with (String "/" rel).
  rewrite (lstrip_cons_drop EtlOps.is_slash "/" rel eq_refl).
  rewrite (rstrip_app_drop EtlOps.is_slash base "/" eq_refl).
  repeat split.
Qed.

(** ** Quality gate: the two checks together *)

Section GateOrder.
Import Checks.



End GateOrder.





(** ** REST pagination: what is collected, and what is lost *)

Section FetchData.
Import IoSources.
Variables (w : World) (url : string).
Variables (pagination : option Pagination) (since : option Since).

(** The loop collects the records of the requests it makes, in order. *)
Lemma fetch_loop_collects (fuel : nat) :
  forall st st' r,
    fetch_loop w url pagination since fuel st = Some (st', r) ->
    page st = (Z.of_nat (requests_made st) + 1)%Z ->
    requests_made st < requests_made st' /\
    all_data st' =
      (all_data st ++
       concat (List.map (page_records w url pagination since)
                 (List.seq (requests_made st) (requests_made st' - requests_made st))))%list.
Proof.
  induction fuel as [|fuel IH]; intros st st' r Hloop Hpage; [discriminate|].
  cbn [fetch_loop] in Hloop.
  assert (Hone : forall s : Fetch,
             requests_made s = S (requests_made st) -> all_data s =
               (all_data st ++ page_records w url pagination since (requests_made st))%list ->
             requests_made st < requests_made s /\
             all_data s =
               (all_data st ++
                concat (List.map (page_records w url pagination since)
                          (List.seq (requests_made st)
                                    (requests_made s - requests_made st))))%list).
  { intros s Hreq Hdata. split; [lia|].
    replace (requests_made s - requests_made st) with 1 by lia.
    simpl. now rewrite app_nil_r. }
  assert (Hpr : page_records w url pagination since (requests_made st)
                = match http_get w (requests_made st) url
                          (request_params pagination since (page st)) with
                  | Ok data => match records_of data with Ok l => l | Raised _ => [] end
                  | Raised _ => []
                  end).
  { unfold page_records. now rewrite <- Hpage. }
  destruct (http_get w (requests_made st) url _) as [data|e] eqn:Hresp.
  - destruct (records_of data) as [[|record records]|e] eqn:Hrec.
    + injection Hloop as <- _. apply Hone; [reflexivity | rewrite Hpr; simpl; now rewrite app_nil_r].
    + destruct (_ || _); cbn beta iota in Hloop.
      * injection Hloop as <- _. apply Hone; [reflexivity | now rewrite Hpr].
      * destruct (Z.ltb _ _); cbn beta iota in Hloop.
        -- injection Hloop as <- _. apply Hone; [reflexivity | now rewrite Hpr].
        -- apply IH in Hloop as (Hlt & Hdata); [|simpl; lia].
           simpl in Hlt, Hdata. split; [lia|]. rewrite Hdata.
           replace (requests_made st' - requests_made st)
             with (S (requests_made st' - S (requests_made st))) by lia.
           cbn [List.seq List.map concat]. rewrite Hpr. now rewrite <- app_assoc.
    + injection Hloop as <- _. apply Hone; [reflexivity | rewrite Hpr; simpl; now rewrite app_nil_r].
  - assert (Hexit : st' = requested st) by (destruct e; now injection Hloop as <- _).
    subst st'. apply Hone; [reflexivity | rewrite Hpr; simpl; now rewrite app_nil_r].
Qed.

(** A request that the transport fails is the last, and the loop leaves
    by the connection error. *)
Lemma fetch_loop_transport_failure (fuel : nat) :
  forall st st' r,
    fetch_loop w url pagination since fuel st = Some (st', r) ->
    page st = (Z.of_nat (requests_made st) + 1)%Z ->
    forall k detail,
      requests_made st <= k < requests_made st' ->
      http_get w k url (request_params pagination since (Z.of_nat k + 1))
        = Raised (RequestException detail) ->
      r = Raised (ConnectionError url detail) /\ requests_made st' = S k.
Proof.
  induction fuel as [|fuel IH]; intros st st' r Hloop Hpage k detail Hk Hget; [discriminate|].
  cbn [fetch_loop] in Hloop.
  destruct (Nat.eq_dec k (requests_made st)) as [->|Hne].
  - rewrite <- Hpage in Hget. rewrite Hget in Hloop. now injection Hloop as <- <-.
  - destruct (http_get w (requests_made st) url _) as [data|e] eqn:Hresp.
    + destruct (records_of data) as [[|record records]|e] eqn:Hrec.
      * injection Hloop as <- _. simpl in Hk. lia.
      * destruct (_ || _); cbn beta iota in Hloop.
        -- injection Hloop as <- _. simpl in Hk. lia.
        -- destruct (Z.ltb _ _); cbn beta iota in Hloop.
           ++ injection Hloop as <- _. simpl in Hk. lia.
           ++ apply (IH _ _ _ Hloop); [simpl; lia | simpl; lia | exact Hget].
      * injection Hloop as <- _. simpl in Hk. lia.
    + assert (Hexit : st' = requested st) by (destruct e; now injection Hloop as <- _).
      subst st'. simpl in Hk. lia.
Qed.

Lemma dict_get_absent (key : string) (d : list (string * Json)) (default : Json) :
  has_key key d = false -> dict_get key d default = default.
Proof.
  induction d as [|[k v] d IH]; [reflexivity|].
  unfold has_key. cbn [existsb fst dict_get]. intros H.
  apply orb_false_iff in H as (Hk & Hd). rewrite Hk. now apply IH.
Qed.

End FetchData.

(** X8: when [rest_fetch] returns, the file holds the records of all
    the requests it made, page after page, nothing dropped and nothing
    reordered. *)
Theorem rest_fetch_collects_pages (w : World) (fuel : nat) (base_url path : string)
    (pagination : option IoSources.Pagination) (since : option IoSources.Since)
    (st : IoSources.Fetch) (file : IoSources.RestFile) :
  IoSources.rest_fetch w fuel base_url path pagination since = Some (st, Ok file) ->
  IoSources.file_records file =
    concat (List.map (page_records w (urljoin w base_url path) pagination since)
              (List.seq 0 (IoSources.requests_made st))).
Proof.
  unfold IoSources.rest_fetch.
  destruct (IoSources.fetch_loop w _ pagination since fuel IoSources.rest_fetch_start)
    as [[st' [[]|e]]|] eqn:Hloop; try discriminate.
  destruct (IoSources.all_data st') eqn:Hdata; [discriminate|].
  intros H. injection H as <- <-. cbn [IoSources.file_records].
  apply fetch_loop_collects in Hloop as (_ & Hall); [|reflexivity].
  simpl in Hall. rewrite Nat.sub_0_r in Hall. now rewrite <- Hdata.
Qed.

Lemma rest_fetch_collects_pages_witness :
  exists st file,
    IoSources.rest_fetch paged_world 100 "https://api.example.com" "/orders" two_per_page None
      = Some (st, Ok file) /\
    IoSources.file_records file =
      concat (List.map (page_records paged_world
                          (urljoin paged_world "https://api.example.com" "/orders")
                          two_per_page None)
                (List.seq 0 (IoSources.requests_made st))).
Proof.
  eexists. eexists. split; [vm_compute; reflexivity|].
  apply (rest_fetch_collects_pages paged_world 100 "https://api.example.com" "/orders"
           two_per_page None).
  vm_compute. reflexivity.
Defined.

(** X9: a transport failure on any page fails the whole fetch: the call
    leaves by the connection error that wraps it, and the records of the
    pages before are not returned. *)
Theorem rest_fetch_transport_failure (w : World) (fuel : nat) (base_url path : string)
    (pagination : option IoSources.Pagination) (since : option IoSources.Since)
    (st : IoSources.Fetch) (r : result IoSources.RestFile) (k : nat) (detail : string) :
  IoSources.rest_fetch w fuel base_url path pagination since = Some (st, r) ->
  k < IoSources.requests_made st ->
  http_get w k (urljoin w base_url path)
    (IoSources.request_params pagination since (Z.of_nat k + 1))
    = Raised (RequestException detail) ->
  r = Raised (ConnectionError (urljoin w base_url path) detail) /\
  IoSources.requests_made st = S k.
Proof.
  unfold IoSources.rest_fetch.
  destruct (IoSources.fetch_loop w _ pagination since fuel IoSources.rest_fetch_start)
    as [[st' r']|] eqn:Hloop; [|discriminate].
  intros Hfetch Hk Hget.
  assert (Hst : st = st').
  { destruct r' as [[]|e]; [destruct (IoSources.all_data st')|]; now injection Hfetch. }
  subst st'.
  destruct (fetch_loop_transport_failure w _ pagination since fuel _ _ _ Hloop eq_refl
              k detail) as (-> & Hlast); [simpl; lia | exact Hget |].
  split; [now injection Hfetch | exact Hlast].
Qed.

Lemma rest_fetch_transport_failure_witness :
  exists st,
    IoSources.rest_fetch flaky_world 100 "https://api.example.com" "/orders" two_per_page None
      = Some (st, Raised (ConnectionError "https://api.example.com/orders" "timed out")) /\
    IoSources.requests_made st = 2 /\ IoSources.all_data st <> [].
Proof.
  destruct (IoSources.rest_fetch flaky_world 100 "https://api.example.com" "/orders"
              two_per_page None) as [[st r]|] eqn:Hrun;
    [|vm_compute in Hrun; discriminate].
  destruct (rest_fetch_transport_failure flaky_world 100 "https://api.example.com" "/orders"
              two_per_page None st r 1 "timed out" Hrun) as (-> & Hlast).
  - vm_compute in Hrun. injection Hrun as <-. simpl. lia.
  - reflexivity.
  - exists st. split; [reflexivity|]. split; [exact Hlast|].
    vm_compute in Hrun. injection Hrun as <-. discriminate.
Defined.

(** X10: a first response that is a JSON object with none of the keys
    [data], [results] and [items] is read as an empty page, not as a
    single record: the fetch makes one request and raises the no-data
    error. *)
Theorem rest_fetch_plain_object_is_no_data (w : World) (fuel : nat) (base_url path : string)
    (pagination : option IoSources.Pagination) (since : option IoSources.Since)
    (d : list (string * Json)) :
  0 < fuel ->
  http_get w 0 (urljoin w base_url path) (IoSources.request_params pagination since 1)
    = Ok (JDict d) ->
  has_key "data" d = false -> has_key "results" d = false -> has_key "items" d = false ->
  exists st,
    IoSources.rest_fetch w fuel base_url path pagination since
      = Some (st, Raised (NoDataReceived (urljoin w base_url path))) /\
    IoSources.requests_made st = 1.
Proof.
  intros Hfuel Hget Hdata Hresults Hitems.
  destruct fuel as [|fuel]; [lia|].
  unfold IoSources.rest_fetch. cbn [IoSources.fetch_loop].
  cbn [IoSources.rest_fetch_start IoSources.page IoSources.requests_made].
  rewrite Hget. cbn [IoSources.records_of].
  rewrite !dict_get_absent by assumption.
  eexists. split; reflexivity.
Qed.

Lemma rest_fetch_plain_object_is_no_data_witness :
  exists st,
    IoSources.rest_fetch single_object_world 100 "https://api.example.com" "/orders/1" None None
      = Some (st, Raised (NoDataReceived "https://api.example.com/orders/1")) /\
    IoSources.requests_made st = 1.
Proof.
  apply (rest_fetch_plain_object_is_no_data single_object_world 100
           "https://api.example.com" "/orders/1" None None
           [("id", JNum 1); ("email", JStr "a@example.com")]);
    [lia | reflexivity | reflexivity | reflexivity | reflexivity].
Defined.

(** ** Specification model: source variants, order and defaults *)

Section SchemaSources.
Import SpecSchema.

Lemma as_file_some (r : RawSource) :
  is_Some (as_file r) <->
  exists t n, raw_type r = Some t /\ raw_name r = Some n /\
              matches_literal "file" t = true /\ is_Some (raw_path r).
Proof.
  unfold as_file.
  destruct (raw_type r) as [t|], (raw_name r) as [n|], (raw_path r) as [p|];
    try (split; [intros (s & H); discriminate
                | intros (t' & n' & Ht & Hn & Hm & (x & Hp)); discriminate]).
  destruct (matches_literal "file" t) eqn:Hm; split.
  - intros _. exists t, n. eauto.
  - intros _. eauto.
  - intros (s & H). discriminate.
  - intros (t' & n' & Ht & _ & Hm' & _). injection Ht as <-. congruence.
Qed.

Lemma as_rest_some (r : RawSource) :
  is_Some (as_rest r) <->
  exists t n, raw_type r = Some t /\ raw_name r = Some n /\
              matches_literal "rest" t = true /\
              is_Some (raw_base_url r) /\ is_Some (raw_path r).
Proof.
  unfold as_rest.
  destruct (raw_type r) as [t|], (raw_name r) as [n|], (raw_base_url r) as [b|],
    (raw_path r) as [p|];
    try (split; [intros (s & H); discriminate
                | intros (t' & n' & Ht & Hn & Hm & (x & Hb) & (y & Hp)); discriminate]).
  destruct (matches_literal "rest" t) eqn:Hm; split.
  - intros _. exists t, n. eauto 10.
  - intros _. eauto.
  - intros (s & H). discriminate.
  - intros (t' & n' & Ht & _ & Hm' & _). injection Ht as <-. congruence.
Qed.

Lemma as_postgres_some (r : RawSource) :
  is_Some (as_postgres r) <->
  exists t n, raw_type r = Some t /\ raw_name r = Some n /\
              matches_literal "postgres" t = true /\
              is_Some (raw_conn_id r) /\ is_Some (raw_table r).
Proof.
  unfold as_postgres.
  destruct (raw_type r) as [t|], (raw_name r) as [n|], (raw_conn_id r) as [c|],
    (raw_table r) as [tb|];
    try (split; [intros (s & H); discriminate
                | intros (t' & n' & Ht & Hn & Hm & (x & Hb) & (y & Hp)); discriminate]).
  destruct (matches_literal "postgres" t) eqn:Hm; split.
  - intros _. exists t, n. eauto 10.
  - intros _. eauto.
  - intros (s & H). discriminate.
  - intros (t' & n' & Ht & _ & Hm' & _). injection Ht as <-. congruence.
Qed.

Lemma validate_source_some (r : RawSource) : is_Some (validate_source r) <-> well_tagged r.
Proof.
  assert (Hsplit : is_Some (validate_source r) <->
                   is_Some (as_file r) \/ is_Some (as_rest r) \/ is_Some (as_postgres r)).
  { unfold validate_source.
    destruct (as_file r) as [f|]; [split; eauto|].
    destruct (as_rest r) as [s|]; [split; eauto|].
    destruct (as_postgres r) as [p|]; simpl; [split; eauto|].
    split; [intros (x & H); discriminate
           | intros [(x & H) | [(x & H) | (x & H)]]; discriminate]. }
  rewrite Hsplit, as_file_some, as_rest_some, as_postgres_some. unfold well_tagged.
  split.
  - intros [(t & n & Ht & Hn & H) | [(t & n & Ht & Hn & H) | (t & n & Ht & Hn & H)]];
      exists t, n; tauto.
  - intros (t & n & Ht & Hn & [H | [H | H]]); [left | right; left | right; right];
      exists t, n; tauto.
Qed.

End SchemaSources.

Section SchemaConstruct.
Import SpecSchema.

Lemma construct_inr (raw : RawSpec) (spec : PipelineSpec) :
  construct raw = inr spec ->
  required "pipeline_name" (raw_pipeline_name raw) = inr (pipeline_name spec) /\
  sources_field (raw_sources raw) = inr (sources spec) /\
  profile spec = default "dev" (raw_profile raw).
Proof.
  unfold construct.
  destruct (required "pipeline_name" _), (required "schedule" _), (sources_field _),
    (required "source_routing" _), (required "transform" _), (required "outputs" _),
    (required "checks" _); intros H; try discriminate.
  injection H as <-. auto.
Qed.

Lemma construct_sources_errors (raw : RawSpec) (e : Errors) :
  sources_field (raw_sources raw) = inl e ->
  exists errors, construct raw = inl errors /\ forall entry, In entry e -> In entry errors.
Proof.
  intros Hsf.
  destruct (construct raw) as [errors|spec] eqn:Hc.
  - exists errors. split; [reflexivity|]. intros entry Hin.
    rewrite (construct_errors raw errors Hc), Hsf. cbn [errors_of].
    apply in_or_app. right. apply in_or_app. right. apply in_or_app. now left.
  - exfalso. unfold construct in Hc. rewrite Hsf in Hc.
    destruct (required "pipeline_name" _), (required "schedule" _); discriminate.
Qed.

(** The errors of an element that no variant accepts are among those of
    the source list. *)
Lemma element_errors_reported (raws : list RawSource) (i : nat) (r : RawSource) :
  raws !! i = Some r -> validate_source r = None ->
  sources_field (Some raws) = inl (concat (imap element_errors raws)) /\
  forall key msg,
    In (key, msg) (file_errors r ++ rest_errors r ++ postgres_errors r) ->
    In ("sources" ++ arrow ++ pretty i ++ arrow ++ key, msg)
       (concat (imap element_errors raws)).
Proof.
  intros Hi Hv. split.
  - unfold sources_field.
    replace (mapM validate_source raws) with (@None (list Source)); [reflexivity|].
    symmetry. apply mapM_None_2, Exists_exists. exists r.
    split; [now apply list_elem_of_lookup_2 with i | exact Hv].
  - intros key msg Hin. apply in_concat. exists (element_errors i r). split.
    + apply list_elem_of_In, elem_of_lookup_imap. now exists i, r.
    + unfold element_errors. rewrite Hv.
      apply in_map_iff. exists (key, msg). split; [reflexivity | exact Hin].
Qed.

(** A type tag matches at most one variant, so one of the first two
    finds fault with it. *)
Lemma type_errors_some (r : RawSource) :
  exists msg, In ("type", msg) (type_errors "file" r ++ type_errors "rest" r).
Proof.
  unfold type_errors. destruct (raw_type r) as [t|]; [|eexists; now left].
  destruct (matches_literal "file" t) eqn:Hfile; [|eexists; now left].
  replace (matches_literal "rest" t) with false; [eexists; now left|].
  unfold matches_literal in Hfile. apply orb_true_iff in Hfile as [H|H];
    apply String.eqb_eq in H; subst t; reflexivity.
Qed.

End SchemaConstruct.

(** X11: a source mapping is accepted exactly when it has a type tag
    that matches one of the three variants, a name, and the keys which
    that variant requires; a specification that holds a mapping that is
    not accepted, such as one with an unknown type or a REST entry without
    a base URL, fails construction, and the error lists under the index of
    the mapping what every variant finds: the required keys that are
    absent and the type tag where it does not match.  One entry at least
    is on the type tag. *)
Theorem validate_source_by_type (r : SpecSchema.RawSource) :
  (is_Some (SpecSchema.validate_source r) <-> well_tagged r) /\
  (forall raw raws i,
      SpecSchema.raw_sources raw = Some raws -> raws !! i = Some r -> ~ well_tagged r ->
      exists errors,
        SpecSchema.construct raw = inl errors /\
        (forall key msg,
            In (key, msg) (SpecSchema.file_errors r ++ SpecSchema.rest_errors r
                           ++ SpecSchema.postgres_errors r) ->
            In ("sources" ++ SpecSchema.arrow ++ pretty i ++ SpecSchema.arrow ++ key, msg)
               errors) /\
        exists msg,
          In ("sources" ++ SpecSchema.arrow ++ pretty i ++ SpecSchema.arrow ++ "type", msg)
             errors).
Proof.
  split; [apply validate_source_some|].
  intros raw raws i Hs Hi Hbad.
  assert (Hv : SpecSchema.validate_source r = None).
  { destruct (SpecSchema.validate_source r) eqn:Hv; [|reflexivity].
    exfalso. apply Hbad, validate_source_some. now rewrite Hv. }
  destruct (element_errors_reported raws i r Hi Hv) as (Hfield & Hlisted).
  destruct (construct_sources_errors raw _ (eq_trans (f_equal _ Hs) Hfield))
    as (errors & Hc & Hincl).
  exists errors. split; [exact Hc|].
  assert (Hall : forall key msg,
             In (key, msg) (SpecSchema.file_errors r ++ SpecSchema.rest_errors r
                            ++ SpecSchema.postgres_errors r) ->
             In ("sources" ++ SpecSchema.arrow ++ pretty i ++ SpecSchema.arrow ++ key, msg)
                errors)
    by (intros key msg Hin; now apply Hincl, Hlisted).
  split; [exact Hall|].
  destruct (type_errors_some r) as (msg & Hmsg). exists msg. apply Hall.
  unfold SpecSchema.file_errors, SpecSchema.rest_errors.
  apply in_app_or in Hmsg as [Hmsg|Hmsg].
  - apply in_or_app. left. apply in_or_app. now left.
  - apply in_or_app. right. apply in_or_app. left. apply in_or_app. now left.
Qed.

Lemma validate_source_by_type_witness :
  exists errors,
    SpecSchema.construct (smoke_spec "orders" [smoke_source; rest_without_base]) = inl errors /\
    In ("sources -> 1 -> base_url", "field required") errors /\
    exists msg, In ("sources -> 1 -> type", msg) errors.
Proof.
  destruct (proj2 (validate_source_by_type rest_without_base)
              (smoke_spec "orders" [smoke_source; rest_without_base])
              [smoke_source; rest_without_base] 1 eq_refl eq_refl)
    as (errors & Hc & Hall & Htype).
  - intros (t & n & Ht & _ & [(Hm & _) | [(_ & (b & Hb) & _) | (Hm & _)]]).
    + injection Ht as <-. discriminate.
    + discriminate.
    + injection Ht as <-. discriminate.
  - exists errors. split; [exact Hc|]. split; [|exact Htype].
    apply (Hall "base_url" "field required"). vm_compute. auto 10.
Defined.

(** X12: construction keeps the sources as they were given: the
    validated list has one source per given mapping, in the same order,
    each the validation of its mapping; the pipeline name is the given
    one, and the profile is the given one or [dev]. *)
Theorem construct_keeps_sources (raw : SpecSchema.RawSpec) (spec : SpecSchema.PipelineSpec) :
  SpecSchema.construct raw = inr spec ->
  exists raws,
    SpecSchema.raw_sources raw = Some raws /\
    Forall2 (fun r s => SpecSchema.validate_source r = Some s) raws (SpecSchema.sources spec) /\
    List.map name_of (SpecSchema.sources spec)
      = List.map (fun r => default EmptyString (SpecSchema.raw_name r)) raws /\
    SpecSchema.raw_pipeline_name raw = Some (SpecSchema.pipeline_name spec) /\
    SpecSchema.profile spec = default "dev" (SpecSchema.raw_profile raw).
Proof.
  intros Hc. apply construct_inr in Hc as (Hn & Hs & Hp).
  unfold SpecSchema.sources_field in Hs.
  destruct (SpecSchema.raw_sources raw) as [raws|]; [|discriminate].
  destruct (mapM SpecSchema.validate_source raws) as [l|] eqn:Hm; [|discriminate].
  destruct l as [|s l]; [discriminate|]. simpl in Hs. injection Hs as Hs.
  apply mapM_Some_1 in Hm. rewrite Hs in Hm.
  exists raws. split; [reflexivity|]. split; [exact Hm|]. split; [|split; [|exact Hp]].
  - clear -Hm. induction Hm as [|r s0 raws l Hv _ IH]; [reflexivity|].
    cbn [List.map]. rewrite IH. f_equal.
    unfold SpecSchema.validate_source, SpecSchema.as_file, SpecSchema.as_rest,
      SpecSchema.as_postgres in Hv.
    destruct (SpecSchema.raw_type r) as [t|], (SpecSchema.raw_name r) as [n|];
      try discriminate.
    destruct (SpecSchema.raw_path r), (SpecSchema.raw_base_url r),
      (SpecSchema.raw_conn_id r), (SpecSchema.raw_table r),
      (SpecSchema.matches_literal "file" t), (SpecSchema.matches_literal "rest" t),
      (SpecSchema.matches_literal "postgres" t);
      simpl in Hv; try discriminate; now injection Hv as <-.
  - unfold SpecSchema.required in Hn.
    destruct (SpecSchema.raw_pipeline_name raw); [now injection Hn as -> | discriminate].
Qed.

Lemma construct_keeps_sources_witness :
  exists spec,
    SpecSchema.construct (smoke_spec "orders" [smoke_source; file_without_condition]) = inr spec /\
    List.map name_of (SpecSchema.sources spec) = ["test"; "orders_csv"].
Proof.
  eexists. split; [reflexivity|].
  destruct (construct_keeps_sources
              (smoke_spec "orders" [smoke_source; file_without_condition]) _ eq_refl)
    as (raws & Hraws & _ & Hnames & _).
  injection Hraws as <-. exact Hnames.
Defined.

(** X13: validation takes the enable condition as it is given, whatever
    it says, and puts [true] where none is given; so a source that leaves
    the condition out is enabled in every environment. *)
Theorem validate_source_default_enabled (r : SpecSchema.RawSource) (s : SpecSchema.Source) :
  SpecSchema.validate_source r = Some s ->
  enabled_if_of s = default "true" (SpecSchema.raw_enabled_if r) /\
  (SpecSchema.raw_enabled_if r = None ->
   forall env, EtlOps.evaluate_condition (enabled_if_of s) env = true).
Proof.
  intros Hv.
  assert (Hcond : enabled_if_of s = default "true" (SpecSchema.raw_enabled_if r)).
  { unfold SpecSchema.validate_source, SpecSchema.as_file, SpecSchema.as_rest,
      SpecSchema.as_postgres in Hv.
    destruct (SpecSchema.raw_type r) as [t|], (SpecSchema.raw_name r) as [n|];
      try discriminate.
    destruct (SpecSchema.raw_path r), (SpecSchema.raw_base_url r),
      (SpecSchema.raw_conn_id r), (SpecSchema.raw_table r),
      (SpecSchema.matches_literal "file" t), (SpecSchema.matches_literal "rest" t),
      (SpecSchema.matches_literal "postgres" t);
      simpl in Hv; try discriminate; now injection Hv as <-. }
  split; [exact Hcond|]. intros Hnone env. rewrite Hcond, Hnone. reflexivity.
Qed.

Lemma validate_source_default_enabled_witness :
  exists s,
    SpecSchema.validate_source file_without_condition = Some s /\
    EtlOps.evaluate_condition (enabled_if_of s) "prod" = true.
Proof.
  eexists. split; [reflexivity|].
  apply (proj2 (validate_source_default_enabled file_without_condition _ eq_refl) eq_refl).
Defined.

(** ** Extraction *)

(** X14: a database source always passes the connectivity probe and
    never extracts: with its connection and table given, [extract] leaves
    by [NotImplementedError] without sending a statement.  So a database
    source that is enabled and whose name is first on the priority list
    is what [select_source] selects, and extraction then fails. *)
Theorem postgres_reachable_not_extractable (w : World) (engine : Extraction.Engine)
    (fuel : nat) (source : Extraction.SourceDict) :
  EtlOps.type (Extraction.common source) = "postgres" ->
  EtlOps.test_source_connectivity w (Extraction.common source) = Ok true /\
  (exists f, Extraction.extract w engine fuel source = Some ([], Failed f)) /\
  (is_Some (Extraction.conn_id source) -> is_Some (Extraction.table source) ->
   Extraction.extract w engine fuel source
     = Some ([], Failed (NotImplementedError
                           "PostgreSQL connector not implemented in Phase A MVP"))) /\
  (forall spec env rest,
      In (Extraction.common source) (EtlOps.sources spec) ->
      EtlOps.evaluate_condition (EtlOps.enabled_if (Extraction.common source)) env = true ->
      EtlOps.primary spec = EtlOps.name (Extraction.common source) :: rest ->
      EtlOps.select_source w spec env = Ok (EtlOps.name (Extraction.common source))).
Proof.
  intros Ht.
  assert (Hprobe : EtlOps.test_source_connectivity w (Extraction.common source) = Ok true).
  { unfold EtlOps.test_source_connectivity. now rewrite probe_postgres. }
  split; [exact Hprobe|]. split; [|split].
  - unfold Extraction.extract. rewrite Ht. cbn [String.eqb Ascii.eqb Bool.eqb].
    destruct (Extraction.conn_id source), (Extraction.table source); simpl; eauto.
  - intros (c & Hc) (tb & Htb). unfold Extraction.extract. rewrite Ht, Hc, Htb. reflexivity.
  - intros spec env rest Hin Henabled Hfirst.
    assert (Hnamed : EtlOps.probe_named w (EtlOps.name (Extraction.common source))
                       (EtlOps.enabled_sources spec env) = Ok true).
    { apply probe_named_usable. exists (Extraction.common source). auto. }
    unfold EtlOps.select_source. rewrite Hfirst. cbn [EtlOps.first_available].
    now rewrite Hnamed.
Qed.

Lemma postgres_reachable_not_extractable_witness :
  EtlOps.test_source_connectivity demo_world (Extraction.common postgres_dict) = Ok true /\
  Extraction.extract demo_world obliging_engine 100 postgres_dict
    = Some ([], Failed (NotImplementedError
                          "PostgreSQL connector not implemented in Phase A MVP")) /\
  EtlOps.select_source demo_world
    (demo_spec (Extraction.common postgres_dict) demo_present) "dev" = Ok "orders_pg".
Proof.
  split; [|split].
  - apply (proj1 (postgres_reachable_not_extractable demo_world obliging_engine 100
                    postgres_dict eq_refl)).
  - apply (proj1 (proj2 (proj2 (postgres_reachable_not_extractable demo_world obliging_engine
                                  100 postgres_dict eq_refl)))); simpl; eauto.
  - apply (proj2 (proj2 (proj2 (postgres_reachable_not_extractable demo_world obliging_engine
                                  100 postgres_dict eq_refl)))
             (demo_spec (Extraction.common postgres_dict) demo_present) "dev" ["b"]);
      [now left | reflexivity | reflexivity].
Defined.

(** X15: for a file source the probe and the extraction agree on the
    files: where the probe answers [False], [extract] fails without
    sending a statement; where it answers [True], [extract] does not fail
    for a missing file: it sends exactly one statement when the format is
    [csv] in any letter case, returning the scratch file if the engine
    accepts the statement, and raises the unsupported-format error for
    any other format without sending one. *)
Theorem extract_file_follows_probe (w : World) (engine : Extraction.Engine) (fuel : nat)
    (source : Extraction.SourceDict) (pattern fmt : string) :
  EtlOps.type (Extraction.common source) = "file" ->
  EtlOps.path (Extraction.common source) = Some pattern ->
  Extraction.format source = Some fmt ->
  (EtlOps.test_source_connectivity w (Extraction.common source) = Ok false ->
   exists f, Extraction.extract w engine fuel source = Some ([], Failed f)) /\
  (EtlOps.test_source_connectivity w (Extraction.common source) = Ok true ->
   (lower fmt = "csv" ->
    exists query,
      Extraction.extract w engine fuel source =
        Some ([query],
              match engine query with
              | Ok _ => Returned (Extraction.TempFile
                                    ("/tmp/etl_pipeline/extracted_" ++ hash_str w pattern
                                     ++ ".parquet"))
              | Raised e => Failed (Propagated e)
              end)) /\
   (lower fmt <> "csv" ->
    Extraction.extract w engine fuel source
      = Some ([], Failed (ValueError ("Unsupported file format: " ++ fmt))))).
Proof.
  intros Ht Hp Hf.
  unfold EtlOps.test_source_connectivity.
  rewrite (probe_file w _ pattern Ht Hp).
  unfold Extraction.extract, Extraction.read_file_to_duckdb.
  rewrite Ht, Hp, Hf. cbn [String.eqb Ascii.eqb Bool.eqb].
  destruct (IoSources.test_file_exists w pattern) as [[]|e]; split;
    try discriminate; try (intros _; eauto; fail).
  intros _. split.
  - intros Hcsv. rewrite Hcsv. cbn [String.eqb Ascii.eqb Bool.eqb].
    match goal with
    | |- context [engine ?q] => exists q; destruct (engine q); reflexivity
    end.
  - intros Hcsv. apply String.eqb_neq in Hcsv. now rewrite Hcsv.
Qed.

Lemma extract_file_follows_probe_witness :
  (exists query,
      Extraction.extract demo_world obliging_engine 100
        (file_dict "./datasets/orders_*.csv" "CSV")
      = Some ([query], Returned (Extraction.TempFile "/tmp/etl_pipeline/extracted_0.parquet"))) /\
  (exists f,
      Extraction.extract demo_world obliging_engine 100
        (file_dict "/nonexistent/path/*.csv" "csv") = Some ([], Failed f)) /\
  Extraction.extract demo_world obliging_engine 100
    (file_dict "./datasets/orders_*.csv" "json")
    = Some ([], Failed (ValueError "Unsupported file format: json")).
Proof.
  split; [|split].
  - destruct (proj1 (proj2 (extract_file_follows_probe demo_world obliging_engine 100
                              (file_dict "./datasets/orders_*.csv" "CSV")
                              "./datasets/orders_*.csv" "CSV" eq_refl eq_refl eq_refl)
                       eq_refl) eq_refl) as (query & Hq).
    exists query. exact Hq.
  - apply (proj1 (extract_file_follows_probe demo_world obliging_engine 100
                    (file_dict "/nonexistent/path/*.csv" "csv")
                    "/nonexistent/path/*.csv" "csv" eq_refl eq_refl eq_refl)).
    reflexivity.
  - apply (proj2 (proj2 (extract_file_follows_probe demo_world obliging_engine 100
                           (file_dict "./datasets/orders_*.csv" "json")
                           "./datasets/orders_*.csv" "json" eq_refl eq_refl eq_refl)
                    eq_refl)).
    discriminate.
Defined.

(** ** Row-store sink *)

Section SinkModes.
Import Sinks.
Variable insertable : Checks.Dataset -> Checks.Dataset -> bool.


End SinkModes.







(** ** Model router *)

(** X19: a router exists only in [closed] mode and only with a
    non-empty API key in the environment, also when a client is handed
    in; hence [generate] on a constructed router never fails its mode
    assertion. *)
Theorem router_always_closed (getenv : string -> option string)
    (make_client : string -> Router.Client) (mode : string)
    (closed_client : option Router.Client) :
  (forall router,
      Router.init getenv make_client mode closed_client = Returned router ->
      mode = "closed" /\ Router.mode router = "closed" /\
      (exists api_key, getenv "GEMINI_API_KEY" = Some api_key /\ api_key <> EmptyString) /\
      forall prompt kwargs msg,
        Router.generate router prompt kwargs <> Failed (AssertionError msg)) /\
  (getenv "GEMINI_API_KEY" = None \/ getenv "GEMINI_API_KEY" = Some EmptyString ->
   exists f, Router.init getenv make_client mode closed_client = Failed f).
Proof.
  unfold Router.init. split.
  - intros router Hinit.
    destruct (String.eqb mode "closed") eqn:Hmode; [|discriminate].
    apply String.eqb_eq in Hmode. subst mode.
    destruct (getenv "GEMINI_API_KEY") as [api_key|]; [|discriminate].
    destruct (String.eqb api_key EmptyString) eqn:Hkey; [discriminate|].
    injection Hinit as <-. cbn [Router.mode].
    repeat split.
    + exists api_key. split; [reflexivity|]. now apply String.eqb_neq.
    + intros prompt kwargs msg. unfold Router.generate. cbn [Router.mode Router.closed].
      cbn [String.eqb Ascii.eqb Bool.eqb].
      destruct (match closed_client with Some c => c | None => make_client api_key end _)
        as [response|e]; [|discriminate].
      destruct (Router.response_item "content" response); discriminate.
  - intros [Hnone | Hempty]; destruct (String.eqb mode "closed"); eauto.
    + rewrite Hnone. eauto.
    + rewrite Hempty. simpl. eauto.
Qed.

Lemma router_always_closed_witness :
  (exists f, Router.init no_environment (fun _ => echo_client) "closed" (Some echo_client)
             = Failed f) /\
  (exists router,
      Router.init key_environment (fun _ => echo_client) "closed" None = Returned router /\
      Router.generate router "hello" no_kwargs = Returned (JStr "hello")).
Proof.
  split.
  - apply (proj2 (router_always_closed no_environment (fun _ => echo_client) "closed"
                    (Some echo_client))).
    left. reflexivity.
  - eexists. split; [reflexivity|].
    destruct (proj1 (router_always_closed key_environment (fun _ => echo_client) "closed" None)
                _ eq_refl) as (_ & _ & _ & Hgen).
    reflexivity.
Defined.

(** ** Request parser: code fences *)

Section Fences.
Import PyStr RequestParser.

Lemma lstrip_spaces (ws s : string) :
  all_space ws = true -> lstrip isspace (ws ++ s) = lstrip isspace s.
Proof.
  induction ws as [|c ws IH]; intros H; [reflexivity|].
  cbn [all_space] in H. apply andb_true_iff in H as (Hc & Hws).
  cbn [String.append lstrip]. rewrite Hc. now apply IH.
Qed.

Lemma rstrip_spaces (ws : string) :
  forall s, all_space ws = true -> rstrip isspace (s ++ ws) = rstrip isspace s.
Proof.
  induction ws as [|c ws IH]; intros s H; [now rewrite append_nil_r|].
  cbn [all_space] in H. apply andb_true_iff in H as (Hc & Hws).
  rewrite <- append_one_cons, (IH _ Hws). now apply rstrip_app_drop.
Qed.

Lemma drop_app_length (a b : string) : drop (String.length a) (a ++ b) = b.
Proof. induction a as [|c a IH]; [now destruct b | exact IH]. Qed.

Lemma take_app_length (a b : string) : take (String.length a) (a ++ b) = a.
Proof.
  induction a as [|c a IH]; [now destruct b|].
  cbn [String.length String.append take]. now rewrite IH.
Qed.

Lemma endswith_app (p a : string) : endswith p (a ++ p) = true.
Proof.
  induction a as [|c a IH].
  - destruct p; cbn [String.append endswith]; rewrite String.eqb_refl; reflexivity.
  - cbn [String.append endswith]. rewrite IH. apply orb_true_r.
Qed.

Lemma drop_last_app (a b : string) : drop_last (String.length b) (a ++ b) = a.
Proof.
  unfold drop_last. rewrite length_append.
  replace (String.length a + String.length b - String.length b) with (String.length a) by lia.
  apply take_app_length.
Qed.

(** Stripping the white space around a fenced text leaves the fenced
    text. *)
Lemma strip_fenced (ws1 ws2 opening body : string) :
  all_space ws1 = true -> all_space ws2 = true ->
  strip isspace (ws1 ++ String "`" opening ++ (body ++ "```") ++ ws2)
  = String "`" opening ++ body ++ "```".
Proof.
  intros H1 H2. unfold strip. rewrite lstrip_spaces by assumption.
  cbn [String.append lstrip]. change (isspace "`") with false. cbn iota.
  change (String "`" (opening ++ (body ++ "```") ++ ws2))
    with (String "`" opening ++ (body ++ "```") ++ ws2).
  rewrite <- append_assoc, rstrip_spaces by assumption.
  change "```" with ("``" ++ "`") at 1.
  rewrite <- !append_assoc. rewrite rstrip_app_keep by reflexivity.
  now rewrite !append_assoc.
Qed.

End Fences.

(** X20: the cleaning of the model's response takes a fence off both
    ends: a response that is a body between the opening fence with the
    [json] tag and a closing fence, with any white space around, is
    cleaned to exactly the body.  Only the tagged fence is taken off the
    start: with an untagged opening fence the cleaned text still starts
    with the fence. *)
Theorem clean_response_unfences (ws1 ws2 body : string) :
  all_space ws1 = true -> all_space ws2 = true ->
  RequestParser.clean_response (ws1 ++ "```json" ++ (body ++ "```") ++ ws2) = body /\
  (PyStr.startswith "json" (body ++ "```") = false ->
   RequestParser.clean_response (ws1 ++ "```" ++ (body ++ "```") ++ ws2) = "```" ++ body).
Proof.
  intros H1 H2. unfold RequestParser.clean_response. split.
  - change ("```json" ++ (body ++ "```") ++ ws2)
      with (String "`" "``json" ++ (body ++ "```") ++ ws2).
    rewrite strip_fenced by assumption.
    change (String "`" "``json" ++ body ++ "```") with ("```json" ++ body ++ "```").
    rewrite startswith_app.
    change 7 with (String.length "```json"). rewrite drop_app_length.
    rewrite endswith_app.
    change 3 with (String.length "```"). apply drop_last_app.
  - intros Htag.
    change ("```" ++ (body ++ "```") ++ ws2)
      with (String "`" "``" ++ (body ++ "```") ++ ws2).
    rewrite strip_fenced by assumption.
    change (String "`" "``" ++ body ++ "```") with ("```" ++ (body ++ "```")).
    replace (PyStr.startswith "```json" ("```" ++ (body ++ "```"))) with false
      by (symmetry; exact Htag).
    rewrite <- append_assoc, endswith_app.
    change 3 with (String.length "```"). apply drop_last_app.
Qed.

Lemma clean_response_unfences_witness :
  RequestParser.clean_response (" ```json" ++ ("{}" ++ "```") ++ " ") = "{}" /\
  RequestParser.clean_response (" ```" ++ ("{}" ++ "```") ++ " ") = "```{}".
Proof.
  split.
  - apply (proj1 (clean_response_unfences " " " " "{}" eq_refl eq_refl)).
  - apply (proj2 (clean_response_unfences " " " " "{}" eq_refl eq_refl)). reflexivity.
Defined.

(** ** Generated transform query *)

Section GeneratedSql.
Import PyStr EtlOps.

(** Text without a dollar sign holds no placeholder to replace. *)
Lemma replace_plain (key value s : string) :
  mem "$"%char s = false -> replace (placeholder key) value s = s.
Proof.
  intros Hs. unfold replace. rewrite placeholder_unfold.
  rewrite <- (append_nil_r s) at 1.
  rewrite replace_go_text by assumption. cbn [replace_go]. apply append_nil_r.
Qed.

Lemma substitute_plain (params : list (string * string)) (s : string) :
  mem "$"%char s = false -> substitute params s = s.
Proof.
  intros Hs. induction params as [|[key value] params IH]; [reflexivity|].
  cbn [substitute]. now rewrite replace_plain.
Qed.

Lemma generate_sql_plain (spec : SpecSchema.PipelineSpec) :
  plain_text (SpecSchema.pipeline_name spec) ->
  plain_text (SpecSchema.sql_file (SpecSchema.transform spec)) ->
  (forall key value,
      lookup_param key (SpecSchema.params (SpecSchema.transform spec)) = Some value ->
      plain_text value) ->
  mem "$"%char (Generator.generate_sql spec) = false.
Proof.
  unfold plain_text. intros Hname Hfile Hparams. unfold Generator.generate_sql.
  rewrite !mem_app, Hname, Hfile.
  assert (Hkey : mem "$"%char
                   (default EmptyString
                      (lookup_param "dedupe_key" (SpecSchema.params (SpecSchema.transform spec))))
                 = false).
  { destruct (lookup_param "dedupe_key" _) eqn:Hk; [now apply (Hparams "dedupe_key")|].
    reflexivity. }
  assert (Hcol : mem "$"%char
                   (default "created_at"
                      (lookup_param "latest_col" (SpecSchema.params (SpecSchema.transform spec))))
                 = false).
  { destruct (lookup_param "latest_col" _) eqn:Hk; [now apply (Hparams "latest_col")|].
    reflexivity. }
  destruct (String.eqb _ EmptyString); [reflexivity|].
  rewrite !mem_app, Hkey, Hcol. reflexivity.
Qed.

End GeneratedSql.

(** X21: the generated transform query holds the parameter values
    themselves, not placeholders: when the pipeline name, the query file
    name and the parameter values have no dollar sign, the substitution
    step of [run_sql] leaves the generated query as it is, whatever the
    parameters, and the query that [run_sql] sends to the engine, once the
    view is created, is the generated text unchanged; the call returns the
    output path when the engine accepts both statements and leaves by the
    engine's exception otherwise. *)
Theorem generated_sql_needs_no_substitution (spec : SpecSchema.PipelineSpec)
    (params : list (string * string)) :
  plain_text (SpecSchema.pipeline_name spec) ->
  plain_text (SpecSchema.sql_file (SpecSchema.transform spec)) ->
  (forall key value,
      lookup_param key (SpecSchema.params (SpecSchema.transform spec)) = Some value ->
      plain_text value) ->
  EtlOps.substitute params (Generator.generate_sql spec) = Generator.generate_sql spec /\
  forall w read_text conn data_path sql_path,
    read_text sql_path = Ok (Generator.generate_sql spec) ->
    exists output_path,
      EtlOps.run_sql w read_text conn data_path sql_path params =
        match conn [] (view_statement data_path) with
        | Raised e => ([view_statement data_path], Raised e)
        | Ok _ =>
            ([view_statement data_path;
              copy_statement (Generator.generate_sql spec) output_path],
             match conn [view_statement data_path]
                        (copy_statement (Generator.generate_sql spec) output_path) with
             | Ok _ => Ok output_path
             | Raised e => Raised e
             end)
        end.
Proof.
  intros Hname Hfile Hparams.
  assert (Hsub : EtlOps.substitute params (Generator.generate_sql spec)
                 = Generator.generate_sql spec).
  { apply substitute_plain, generate_sql_plain; assumption. }
  split; [exact Hsub|].
  intros w read_text conn data_path sql_path Hread.
  unfold EtlOps.run_sql. rewrite Hread, Hsub.
  exists ("/tmp/etl_pipeline/transformed_" ++ hash_str w sql_path ++ ".parquet").
  unfold view_statement, copy_statement. cbv zeta.
  destruct (conn [] _); [|reflexivity]. now destruct (conn [_] _).
Qed.

Lemma generated_sql_needs_no_substitution_witness :
  EtlOps.substitute [("dedupe_key", "id"); ("latest_col", "updated_at")]
    (Generator.generate_sql (orders_spec [("dedupe_key", "id"); ("latest_col", "updated_at")]))
  = Generator.generate_sql (orders_spec [("dedupe_key", "id"); ("latest_col", "updated_at")]).
Proof.
  apply (proj1 (generated_sql_needs_no_substitution
                  (orders_spec [("dedupe_key", "id"); ("latest_col", "updated_at")])
                  [("dedupe_key", "id"); ("latest_col", "updated_at")]
                  eq_refl eq_refl
                  ltac:(intros key value H; simpl in H;
                        repeat (match type of H with
                                | (if ?c then _ else _) = _ => destruct c
                                end;
                                [injection H as <-; reflexivity|]);
                        discriminate))).
Defined.

(** ** Condition evaluator: white space around the value *)

Section SpacedConditions.
Import PyStr.

Lemma all_space_mem (c : ascii) (ws : string) :
  isspace c = false -> all_space ws = true -> mem c ws = false.
Proof.
  intros Hc. induction ws as [|a ws IH]; intros H; [reflexivity|].
  cbn [all_space] in H. apply andb_true_iff in H as (Ha & Hws).
  cbn [mem]. rewrite (IH Hws), orb_false_r.
  apply Ascii.eqb_neq. intros ->. congruence.
Qed.

(** Text without an equals sign, put before or after, brings no [==]. *)
Lemma contains_after_plain (a b : string) :
  mem "="%char a = false -> contains "==" (a ++ b) = contains "==" b.
Proof.
  induction a as [|c a IH]; intros H; [reflexivity|].
  cbn [mem] in H. apply orb_false_iff in H as (Hc & Ha).
  cbn [String.append contains startswith]. rewrite Hc. simpl. now apply IH.
Qed.

Lemma startswith_eq_plain (a : string) :
  mem "="%char a = false -> startswith "=" a = false.
Proof.
  destruct a as [|c a]; [reflexivity|]. cbn [mem startswith]. intros H.
  apply orb_false_iff in H as (Hc & _). now rewrite Hc.
Qed.

Lemma contains_before_plain (a b : string) :
  mem "="%char a = false -> contains "==" (b ++ a) = contains "==" b.
Proof.
  intros Ha. induction b as [|c b IH].
  - cbn [String.append]. rewrite <- (append_nil_r a), contains_after_plain by assumption.
    now destruct a.
  - cbn [String.append contains]. rewrite IH. f_equal.
    destruct b as [|c' b]; cbn [String.append].
    + pose proof (startswith_eq_plain a Ha) as Hs.
      simpl. simpl in Hs. rewrite Hs. now destruct (Ascii.eqb "=" c).
    + reflexivity.
Qed.

Lemma strip_spaces_around (ws1 ws2 : string) (c0 c1 : ascii) (middle : string) :
  all_space ws1 = true -> all_space ws2 = true ->
  isspace c0 = false -> isspace c1 = false ->
  strip isspace (ws1 ++ (String c0 middle ++ String c1 EmptyString) ++ ws2)
  = String c0 middle ++ String c1 EmptyString.
Proof.
  intros H1 H2 H0 Hc1. unfold strip. rewrite lstrip_spaces by assumption.
  cbn [String.append lstrip]. rewrite H0.
  change (String c0 ((middle ++ String c1 EmptyString) ++ ws2))
    with ((String c0 middle ++ String c1 EmptyString) ++ ws2).
  rewrite rstrip_spaces by assumption. now apply rstrip_app_keep.
Qed.

End SpacedConditions.

(** X22: white space after the operator and at the end of an equality
    test does not matter, none at all included: with a quoted value that
    has no [==] inside and no quote character at an end, the condition is
    true exactly when the environment equals the value. *)
Theorem evaluate_condition_ignores_spaces (ws1 ws2 : string) (q : ascii)
    (value env : string) :
  all_space ws1 = true -> all_space ws2 = true ->
  is_quote q = true -> plain_value value ->
  (EtlOps.evaluate_condition (spaced_equality_test ws1 ws2 q value) env = true <->
   env = value).
Proof.
  intros H1 H2 Hq (Hsep & Hedge).
  assert (Hqs : PyStr.isspace q = false /\ Ascii.eqb "=" q = false).
  { destruct (is_quote_cases q Hq) as [-> | ->]; split; reflexivity. }
  destruct Hqs as (Hqspace & Hqeq).
  assert (Hws1 : PyStr.mem "="%char ws1 = false) by (now apply all_space_mem).
  assert (Hws2 : PyStr.mem "="%char ws2 = false) by (now apply all_space_mem).
  set (quoted := String q value ++ String q EmptyString).
  assert (Hquoted : PyStr.contains "==" quoted = false).
  { unfold quoted. change (String q value ++ String q EmptyString)
      with (String q EmptyString ++ (value ++ String q EmptyString)).
    rewrite contains_after_plain by (cbn [PyStr.mem]; now rewrite Hqeq).
    now apply contains_two_app_one. }
  assert (Hpiece : PyStr.split "==" (spaced_equality_test ws1 ws2 q value)
                   = ["env "; ws1 ++ quoted ++ ws2]).
  { pose (rest := ws1 ++ quoted ++ ws2).
    assert (Hrest : PyStr.contains "==" rest = false)
      by (unfold rest; now rewrite contains_after_plain, contains_before_plain).
    change (PyStr.split "==" ("env ==" ++ rest) = ["env "; rest]).
    clearbody rest. unfold PyStr.split.
    change ("env ==" ++ rest)
      with (String "e" (String "n" (String "v" (String " " (String "=" (String "=" rest)))))).
    cbn [PyStr.split_go PyStr.startswith Ascii.eqb Bool.eqb String.length Nat.sub
         String.append].
    now rewrite split_go_no_sep. }
  assert (Heval : EtlOps.evaluate_condition (spaced_equality_test ws1 ws2 q value) env
                  = String.eqb env (EtlOps.target_env (spaced_equality_test ws1 ws2 q value))).
  { unfold EtlOps.evaluate_condition, EtlOps.evaluate_condition_io, spaced_equality_test.
    reflexivity. }
  rewrite Heval. unfold EtlOps.target_env. rewrite Hpiece.
  unfold quoted.
  rewrite (strip_spaces_around ws1 ws2 q q value) by assumption.
  fold is_quote. rewrite (strip_app_drop _ _ _ Hq).
  unfold PyStr.strip. cbn [PyStr.lstrip]. rewrite Hq.
  change (PyStr.rstrip is_quote (PyStr.lstrip is_quote value)) with (PyStr.strip is_quote value).
  rewrite strip_fixed by assumption. apply String.eqb_eq.
Qed.

Lemma evaluate_condition_ignores_spaces_witness :
  (EtlOps.evaluate_condition (spaced_equality_test EmptyString "  " PyStr.squote "dev") "dev"
     = true <-> "dev" = "dev").
Proof.
  apply (evaluate_condition_ignores_spaces EmptyString "  " PyStr.squote "dev" "dev");
    [reflexivity | reflexivity | reflexivity |].
  split; [reflexivity|]. intros q Hq.
  destruct (is_quote_cases q Hq) as [-> | ->]; split; reflexivity.
Defined.


(** * Missing keys of a specification *)

Section MissingKeys.
Import SpecSchema.

Lemma reported_missing_app (e1 e2 : Errors) :
  reported_missing (e1 ++ e2)%list = (reported_missing e1 ++ reported_missing e2)%list.
Proof. unfold reported_missing. now rewrite List.filter_app, List.map_app. Qed.

Lemma reported_missing_required {A : Type} (field : string) (v : option A) :
  PyStr.contains arrow field = false ->
  reported_missing (errors_of (required field v)) = absent field v.
Proof.
  intros Hfield. destruct v; [reflexivity|].
  unfold reported_missing, top_level. cbn [errors_of required List.filter fst snd].
  now rewrite Hfield.
Qed.

Lemma reported_missing_nested (errors : Errors) :
  (forall entry, In entry errors -> exists rest, fst entry = "sources" ++ arrow ++ rest) ->
  reported_missing errors = [].
Proof.
  unfold reported_missing. induction errors as [|entry errors IH]; intros Hloc; [reflexivity|].
  cbn [List.filter]. destruct (Hloc entry (or_introl eq_refl)) as (rest & Hrest).
  replace (top_level (fst entry)) with false by (rewrite Hrest; reflexivity).
  apply IH. intros e He. apply Hloc. now right.
Qed.

Lemma reported_missing_sources (v : option (list RawSource)) :
  reported_missing (errors_of (sources_field v)) = absent "sources" v.
Proof.
  unfold sources_field. destruct v as [raws|]; [|reflexivity].
  destruct (mapM validate_source raws) as [[|s l]|]; try reflexivity.
  cbn [errors_of absent]. apply reported_missing_nested. intros entry Hin.
  apply element_errors_location in Hin as (i & r & rest & _ & _ & ->). eauto.
Qed.

Lemma required_present {A : Type} (field : string) (v : option A) (a : A) :
  required field v = inr a -> absent field v = [].
Proof. destruct v; [reflexivity | discriminate]. Qed.

Lemma sources_field_present (v : option (list RawSource)) (l : list Source) :
  sources_field v = inr l -> absent "sources" v = [].
Proof. destruct v; [reflexivity | discriminate]. Qed.

Lemma construct_inr_present (raw : RawSpec) (spec : PipelineSpec) :
  construct raw = inr spec -> missing_fields raw = [].
Proof.
  unfold construct, missing_fields.
  destruct (required "pipeline_name" _) eqn:H1, (required "schedule" _) eqn:H2,
    (sources_field _) eqn:H3, (required "source_routing" _) eqn:H4,
    (required "transform" _) eqn:H5, (required "outputs" _) eqn:H6,
    (required "checks" _) eqn:H7; intros H; try discriminate.
  rewrite (required_present _ _ _ H1), (required_present _ _ _ H2),
    (sources_field_present _ _ H3), (required_present _ _ _ H4),
    (required_present _ _ _ H5), (required_present _ _ _ H6),
    (required_present _ _ _ H7).
  reflexivity.
Qed.

End MissingKeys.

(** X23: construction does not stop at the first missing key: when
    required keys of the specification are absent it fails, and the
    entries with the message [field required] that are located at a key
    of the specification itself, not under an element of the source list,
    name exactly the absent required keys, each once and in the order of
    declaration.  The key [profile], which has a default, is never among
    them. *)
Theorem construct_reports_every_missing_key (raw : SpecSchema.RawSpec) :
  missing_fields raw <> [] ->
  exists errors,
    SpecSchema.construct raw = inl errors /\
    reported_missing errors = missing_fields raw /\
    ~ In "profile" (reported_missing errors).
Proof.
  intros Hmiss.
  destruct (SpecSchema.construct raw) as [errors|spec] eqn:Hc.
  - exists errors. split; [reflexivity|].
    assert (Hrep : reported_missing errors = missing_fields raw).
    { rewrite (construct_errors raw errors Hc). rewrite !reported_missing_app.
      rewrite !reported_missing_required, reported_missing_sources by reflexivity.
      reflexivity. }
    split; [exact Hrep|]. rewrite Hrep. unfold missing_fields. intros Hin.
    repeat (apply in_app_or in Hin as [Hin|Hin]);
      match type of Hin with
      | In _ (absent _ ?v) => destruct v; simpl in Hin; [contradiction|];
                              destruct Hin as [Hin|[]]; discriminate Hin
      end.
  - exfalso. apply Hmiss. exact (construct_inr_present raw spec Hc).
Qed.

Lemma construct_reports_every_missing_key_witness :
  exists errors,
    SpecSchema.construct (without_keys (smoke_spec "smoke_test" [smoke_source])) = inl errors /\
    reported_missing errors
      = missing_fields (without_keys (smoke_spec "smoke_test" [smoke_source])) /\
    ~ In "profile" (reported_missing errors).
Proof.
  apply (construct_reports_every_missing_key
           (without_keys (smoke_spec "smoke_test" [smoke_source]))).
  discriminate.
Defined.
